(** * CardMan: the OpenAI helper functions of the front end

    A shallow embedding of the helper file of the CardMan front end
    (searchCardWithOpenAI, analyzeCardImage, convertAIResponseToCardData,
    recommendBestCard, recommendCardFromImage) and the properties its
    specification states about them.

    JavaScript values are the values JSON.parse can return, strings are
    sequences of UTF-16 code units, numbers are IEEE binary64 values kept
    exactly as integers times powers of two. *)

From Stdlib Require Import String Ascii ZArith NArith Lia DecimalString.
From stdpp Require Import gmap list.

Local Open Scope Z_scope.

(** ** Strings *)

(** A JavaScript string: its UTF-16 code units. *)
Abbreviation jsstring := (list Z).

(** The code units of an ASCII literal. *)
Definition str (s : string) : jsstring :=
  (fun a => Z.of_N (N_of_ascii a)) <$> list_ascii_of_string s.

(** The decimal digits of a non-negative integer, as template literals and
    index keys print it. *)
Definition decimal (n : Z) : jsstring :=
  str (NilZero.string_of_uint (N.to_uint (Z.to_N n))).

Module Char.

Definition hyphen : Z := 45.
Definition dot : Z := 46.
Definition comma : Z := 44.

(** [0-9], which is all that \d matches. *)
Definition is_digit (c : Z) : bool := (48 <=? c) && (c <=? 57).

(** [a-z] *)
Definition is_lower (c : Z) : bool := (97 <=? c) && (c <=? 122).

(** [A-Z] *)
Definition is_upper (c : Z) : bool := (65 <=? c) && (c <=? 90).

(** \s: the WhiteSpace and LineTerminator code points of ECMAScript:
    TAB, LF, VT, FF, CR, SP, NBSP, U+1680, U+2000..U+200A, U+2028,
    U+2029, U+202F, U+205F, U+3000 and U+FEFF. *)
Definition is_space (c : Z) : bool :=
  ((9 <=? c) && (c <=? 13)) || (c =? 32) || (c =? 160) || (c =? 5760)
  || ((8192 <=? c) && (c <=? 8202)) || (c =? 8232) || (c =? 8233)
  || (c =? 8239) || (c =? 8287) || (c =? 12288) || (c =? 65279).

(** [a-z0-9\s], the class whose complement the first replace deletes. *)
Definition is_kept (c : Z) : bool := is_lower c || is_digit c || is_space c.

(** [\d.] *)
Definition is_digit_or_dot (c : Z) : bool := is_digit c || (c =? dot).

(** What String.prototype.toLowerCase makes of one code unit.  ASCII and
    Latin-1 capitals move down by 32; U+0130 becomes "i" followed by
    U+0307 and the Kelvin sign U+212A becomes "k": these two are the only
    characters outside ASCII whose lower case reaches ASCII.  The rest of
    the Unicode table sends characters outside ASCII to characters that
    are outside ASCII and outside \s; both forms are deleted alike by the
    replace that follows every toLowerCase of this program, and they are
    left as they are here. *)
Definition lower (c : Z) : list Z :=
  if is_upper c then [c + 32]
  else if (192 <=? c) && (c <=? 222) && negb (c =? 215) then [c + 32]
  else if c =? 304 then [105; 775]
  else if c =? 8490 then [107]
  else [c].

End Char.

(** s.toLowerCase() *)
Definition toLowerCase (s : jsstring) : jsstring := concat (Char.lower <$> s).

(** s.replace(/[^a-z0-9\s]/g, '') *)
Definition strip_special (s : jsstring) : jsstring := List.filter Char.is_kept s.

(** s.replace(/\s+/g, '-'): every maximal run of white space becomes one
    hyphen; [in_run] tells that the previous code unit was white space. *)
Fixpoint hyphenate_from (in_run : bool) (s : jsstring) : jsstring :=
  match s with
  | [] => []
  | c :: r =>
      if Char.is_space c
      then if in_run then hyphenate_from true r
           else Char.hyphen :: hyphenate_from true r
      else c :: hyphenate_from false r
  end.

Definition hyphenate (s : jsstring) : jsstring := hyphenate_from false s.

(** s.substring(0, n) *)
Definition substring0 (n : nat) (s : jsstring) : jsstring := take n s.

(** name.toLowerCase().replace(/[^a-z0-9\s]/g, '').replace(/\s+/g, '-'),
    the chain that derives card_id (lines 186-188) and, cut to thirty code
    units, every category key (lines 166-169). *)
Definition slugify (s : jsstring) : jsstring :=
  hyphenate (strip_special (toLowerCase s)).

Fixpoint take_while (p : Z -> bool) (s : jsstring) : jsstring :=
  match s with
  | [] => []
  | c :: r => if p c then c :: take_while p r else []
  end.

Fixpoint drop_while (p : Z -> bool) (s : jsstring) : jsstring :=
  match s with
  | [] => []
  | c :: r => if p c then drop_while p r else s
  end.

(** s.match(/[\d.]+/): the first maximal run of digits and dots, None for
    the null the method returns when there is none. *)
Definition match_digits_dots (s : jsstring) : option jsstring :=
  match drop_while (fun c => negb (Char.is_digit_or_dot c)) s with
  | [] => None
  | c :: r => Some (c :: take_while Char.is_digit_or_dot r)
  end.

(** a.join(sep) on strings *)
Fixpoint join (sep : jsstring) (l : list jsstring) : jsstring :=
  match l with
  | [] => []
  | [x] => x
  | x :: r => x ++ sep ++ join sep r
  end.

(** s.includes(sub), used to state what a formatted line contains. *)
Fixpoint starts_with (sub s : jsstring) : bool :=
  match sub, s with
  | [], _ => true
  | _ :: _, [] => false
  | a :: sub', b :: s' => (a =? b) && starts_with sub' s'
  end.

Fixpoint includes (sub s : jsstring) : bool :=
  starts_with sub s ||
  match s with
  | [] => false
  | _ :: r => includes sub r
  end.

(** ** Numbers *)

(** A JavaScript number as this program can meet it: NaN, +Infinity, or the
    finite binary64 value [m * 2^e], kept with [m] odd (or [m = 0] and
    [e = 0]) so that equal values are equal terms.  The negative zero has
    no part in this program and is not represented. *)
Inductive number : Type :=
  | NaN
  | Infinity
  | Fin (m e : Z).

Module Binary64.

(** Takes the factors of two out of a positive mantissa. *)
Fixpoint odd_part (m : positive) (e : Z) : positive * Z :=
  match m with
  | xO m' => odd_part m' (e + 1)
  | _ => (m, e)
  end.

(** The number m * 2^e with its mantissa made odd. *)
Definition normalise (m e : Z) : number :=
  match m with
  | Z0 => Fin 0 0
  | Zpos p => let (p', e') := odd_part p e in Fin (Zpos p') e'
  | Zneg p => let (p', e') := odd_part p e in Fin (Zneg p') e'
  end.

(** floor (log2 (p / q)) for positive p and q. *)
Definition binade (p q : Z) : Z :=
  let l := Z.log2 p - Z.log2 q in
  if (if 0 <=? l then q * 2 ^ l <=? p else q <=? p * 2 ^ (- l))
  then l else l - 1.

(** The integer nearest to num / den, the even one of two that are equally
    near. *)
Definition round_half_even (num den : Z) : Z :=
  let m := num / den in
  let r := num mod den in
  if (den <? 2 * r) || ((2 * r =? den) && Z.odd m) then m + 1 else m.

(** The exponent of the unit in the last place for p / q: 52 below the
    binade, and -1074 for the subnormals. *)
Definition ulp_exponent (p q : Z) : Z := Z.max (binade p q - 52) (-1074).

(** The binary64 value nearest to p / q, ties to the even mantissa, for
    p >= 0 and q > 0: 53 bits of mantissa, exponents of the unit in the
    last place from -1074 to 971, Infinity from 2^1024 on. *)
Definition nearest_nonneg (p q : Z) : number :=
  if p =? 0 then Fin 0 0
  else
    let e := ulp_exponent p q in
    let m := if e <? 0 then round_half_even (p * 2 ^ (- e)) q
             else round_half_even p (q * 2 ^ e) in
    if (971 <? e) || ((e =? 971) && (m =? 2 ^ 53)) then Infinity
    else normalise m e.

Definition negate (x : number) : number :=
  match x with
  | Fin m e => Fin (- m) e
  | _ => x
  end.

(** The Number value of the rational p / q, q > 0. *)
Definition nearest (p q : Z) : number :=
  if p <? 0 then negate (nearest_nonneg (- p) q) else nearest_nonneg p q.

(** x >= 10^21, the bound from which toFixed falls back to ToString. *)
Definition at_least_1e21 (m e : Z) : bool :=
  if 0 <=? e then 10 ^ 21 <=? m * 2 ^ e else 10 ^ 21 * 2 ^ (- e) <=? m.

(** The integer n for which n / 100 is nearest to m * 2^e, the larger one
    of two that are equally near; for m >= 0. *)
Definition hundredths (m e : Z) : Z :=
  if 0 <=? e then 100 * m * 2 ^ e
  else (200 * m + 2 ^ (- e)) / 2 ^ (1 - e).

End Binary64.

(** The string x.toFixed(2) returns, by its three shapes: "NaN"; the
    ToString of x when x is infinite or at least 10^21 in magnitude; the
    digits of n / 100 with two decimals, n the signed number of
    hundredths. *)
Inductive fixed_string : Type :=
  | FixedNaN
  | FixedToString (x : number)
  | FixedDecimal (n : Z).

Definition toFixed2 (x : number) : fixed_string :=
  match x with
  | NaN => FixedNaN
  | Infinity => FixedToString Infinity
  | Fin m e =>
      if Binary64.at_least_1e21 (Z.abs m) e then FixedToString x
      else if m <? 0 then FixedDecimal (- Binary64.hundredths (- m) e)
      else FixedDecimal (Binary64.hundredths m e)
  end.

(** Number(s) on a string toFixed returned: "NaN" reads as NaN, the
    ToString of a number reads back as that number, and a decimal reads as
    the binary64 value nearest to it. *)
Definition Number_of_fixed (s : fixed_string) : number :=
  match s with
  | FixedNaN => NaN
  | FixedToString x => x
  | FixedDecimal n => Binary64.nearest n 100
  end.

(** The value of a sequence of decimal digits. *)
Definition digits_value (ds : jsstring) : Z :=
  fold_left (fun acc c => 10 * acc + (c - 48)) ds 0.

(** The Number value of the decimal literal [ip.fp]. *)
Definition number_of_decimal (ip fp : jsstring) : number :=
  Binary64.nearest (digits_value (ip ++ fp)) (10 ^ Z.of_nat (length fp)).

(** parseFloat(s) on the strings line 177 passes to it: a run of digits and
    dots, or "0".  It reads the longest prefix that is a decimal literal
    (digits, digits "." digits with the digits after the dot optional, or
    "." digits), and gives NaN when no prefix is one.  Signs, exponents,
    leading white space and "Infinity" cannot occur in such a string and
    are not read. *)
Definition parseFloat (s : jsstring) : number :=
  let ip := take_while Char.is_digit s in
  match drop_while Char.is_digit s with
  | c :: r =>
      if c =? Char.dot then
        let fp := take_while Char.is_digit r in
        match ip, fp with
        | [], [] => NaN
        | _, _ => number_of_decimal ip fp
        end
      else match ip with [] => NaN | _ => number_of_decimal ip [] end
  | [] => match ip with [] => NaN | _ => number_of_decimal ip [] end
  end.

(** ** Values *)

(** What JSON.parse returns, with undefined for what a property read gives
    when the property is missing.  A number is kept as the string that
    Number.prototype.toString gives for it: this program only tests
    numbers of its input for truth and prints them. *)
#[local] Unset Elimination Schemes.
Inductive value : Type :=
  | VUndefined
  | VNull
  | VBool (b : bool)
  | VNumber (repr : jsstring)
  | VString (s : jsstring)
  | VArray (items : list value)
  | VObject (props : list (jsstring * value)).
#[local] Set Elimination Schemes.

(** An object: its own properties in the order Object.entries lists them. *)
Abbreviation object := (list (list Z * value)).

Definition jsstring_eqb (a b : jsstring) : bool := bool_decide (a = b).

(** o[k] on a plain object, undefined when o has no own property k.  The
    keys this program reads are never names of Object.prototype. *)
Fixpoint get_own (o : object) (k : jsstring) : value :=
  match o with
  | [] => VUndefined
  | (k', v) :: r => if jsstring_eqb k' k then v else get_own r k
  end.

(** o[k] = v on a plain object: the property keeps its place when it
    exists and is added last when it does not. *)
Fixpoint set_own (o : object) (k : jsstring) (v : value) : object :=
  match o with
  | [] => [(k, v)]
  | (k', v') :: r =>
      if jsstring_eqb k' k then (k', v) :: r else (k', v') :: set_own r k v
  end.

Definition has_own (o : object) (k : jsstring) : bool :=
  existsb (fun kv => jsstring_eqb kv.1 k) o.

(** ToBoolean: undefined, null, false, 0, NaN and "" are false. *)
Definition truthy (v : value) : bool :=
  match v with
  | VUndefined | VNull => false
  | VBool b => b
  | VNumber r => negb (jsstring_eqb r (str "0") || jsstring_eqb r (str "NaN"))
  | VString s => match s with [] => false | _ => true end
  | VArray _ | VObject _ => true
  end.

(** Array.isArray *)
Definition isArray (v : value) : bool :=
  match v with VArray _ => true | _ => false end.

(** Errors a function of this program can end with. *)
Inductive error : Type :=
  | Error (message : jsstring)
  | TypeError
  | SyntaxError
  | NetworkError.

Inductive result (A : Type) : Type :=
  | Ok (a : A)
  | Throw (e : error).
Arguments Ok {A} a.
Arguments Throw {A} e.

(** ToString(v), also what v.toString() returns for the values that reach
    line 172.  A plain object prints as "[object Object]" unless it has an
    own property named toString, which is data and cannot be called: both
    the conversion and the method call then end with a TypeError.  An array
    joins its elements with commas, null and undefined printing as
    nothing. *)
Fixpoint ToString (v : value) : result jsstring :=
  match v with
  | VUndefined => Ok (str "undefined")
  | VNull => Ok (str "null")
  | VBool true => Ok (str "true")
  | VBool false => Ok (str "false")
  | VNumber r => Ok r
  | VString s => Ok s
  | VArray items =>
      let fix elements (l : list value) : result (list jsstring) :=
        match l with
        | [] => Ok []
        | x :: r =>
            match (match x with
                   | VUndefined | VNull => Ok []
                   | _ => ToString x
                   end) with
            | Throw e => Throw e
            | Ok sx =>
                match elements r with
                | Throw e => Throw e
                | Ok sr => Ok (sx :: sr)
                end
            end
        end in
      match elements items with
      | Throw e => Throw e
      | Ok l => Ok (join [Char.comma] l)
      end
  | VObject props =>
      if has_own props (str "toString") then Throw TypeError
      else Ok (str "[object Object]")
  end.

(** v.k for one of the property names this program reads (card_name,
    category, rate, description, error, message, choices, content, ...):
    a TypeError on null and undefined, the own property of an object,
    undefined on every other value, whose prototypes have none of these
    names. *)
Definition get (v : value) (k : jsstring) : result value :=
  match v with
  | VUndefined | VNull => Throw TypeError
  | VObject props => Ok (get_own props k)
  | _ => Ok VUndefined
  end.

(** v[0] *)
Definition get_first (v : value) : result value :=
  match v with
  | VUndefined | VNull => Throw TypeError
  | VObject props => Ok (get_own props (str "0"))
  | VArray items => Ok (match items with x :: _ => x | [] => VUndefined end)
  | VString s => Ok (match s with c :: _ => VString [c] | [] => VUndefined end)
  | _ => Ok VUndefined
  end.

(** s.toLowerCase() as a method call on any value that passed a truth
    test: only strings have the method. *)
Definition call_toLowerCase (v : value) : result jsstring :=
  match v with
  | VString s => Ok (toLowerCase s)
  | _ => Throw TypeError
  end.

(** Object.entries(v) for a value that passed a truth test. *)
Definition entries (v : value) : list (jsstring * value) :=
  match v with
  | VObject props => props
  | VArray items => imap (fun i x => (decimal (Z.of_nat i), x)) items
  | VString s => imap (fun i c => (decimal (Z.of_nat i), VString [c])) s
  | _ => []
  end.

(** ** Effects *)

(** Exceptions in sequence: the first Throw ends the computation. *)
#[global] Instance result_ret : MRet result := fun A a => Ok a.
#[global] Instance result_bind : MBind result := fun A B f r =>
  match r with
  | Ok a => f a
  | Throw e => Throw e
  end.

(** A line of the console: the method called and its text label; the
    object printed after the label is not kept. *)
Inductive console_method : Type := Log | Warn | ConsoleError.
Definition console_line : Type := console_method * jsstring.

(** A computation over a store S that returns or throws; what it wrote
    before a throw stays written. *)
Definition M (S A : Type) : Type := S -> result A * S.

#[global] Instance M_ret {S} : MRet (M S) := fun A a st => (Ok a, st).
#[global] Instance M_bind {S} : MBind (M S) := fun A B f c st =>
  match c st with
  | (Ok a, st') => f a st'
  | (Throw e, st') => (Throw e, st')
  end.

Definition throw {S A} (e : error) : M S A := fun st => (Throw e, st).

Definition lift {S A} (r : result A) : M S A := fun st => (r, st).

(** try { body } catch (error) { handler(error) } *)
Definition try_catch {S A} (body : M S A) (handler : error -> M S A) : M S A :=
  fun st =>
    match body st with
    | (Ok a, st') => (Ok a, st')
    | (Throw e, st') => handler e st'
    end.

(** Stores that hold the console. *)
Class Console (S : Type) := print : console_line -> S -> S.

Definition console {S} `{Console S} (m : console_method) (label : string)
  : M S unit :=
  fun st => (Ok tt, print (m, str label) st).

#[global] Instance list_console : Console (list console_line) :=
  fun line st => st ++ [line].

(** ** convertAIResponseToCardData (lines 141-200) *)

(** The value stored under a category key (lines 179-182). *)
Record category_info : Type := {
  rate : number;
  description : jsstring
}.

(** The record the function returns (lines 190-196). *)
Record card_data : Type := {
  card_id : jsstring;
  card_name : value;
  bank : value;
  card_type : jsstring;
  cashback_categories : gmap jsstring category_info
}.

(** The store of a call: the caller's aiResponse object, which the function
    reads and writes through its parameter, and the console. *)
Record store : Type := {
  aiResponse : object;
  lines : list console_line
}.

#[global] Instance store_console : Console store := fun line st =>
  {| aiResponse := aiResponse st; lines := lines st ++ [line] |}.

(** aiResponse.k *)
Definition read (k : string) : M store value :=
  fun st => (Ok (get_own (aiResponse st) (str k)), st).

(** aiResponse.k = v *)
Definition write (k : string) (v : value) : M store unit :=
  fun st => (Ok tt, {| aiResponse := set_own (aiResponse st) (str k) v;
                       lines := lines st |}).

(** Lines 172-180: from the text of cat.rate to the number stored. *)
Definition extract_rate (rate_text : jsstring) : number :=
  let rateMatch := match_digits_dots rate_text in
  let rateString := match rateMatch with Some t => t | None => str "0" end in
  let rate := parseFloat rateString in
  Number_of_fixed (toFixed2 rate).

(** The callback of forEach (lines 159-183); [acc] is cashbackCategories as
    the entries before this one left it. *)
Definition forEach_callback (cat : value) (acc : gmap jsstring category_info)
  : M store (gmap jsstring category_info) :=
  category ← lift (get cat (str "category"));
  if negb (truthy category)
  then console Warn "Skipping invalid category:";; mret acc
  else
    cat_rate ← lift (get cat (str "rate"));
    if negb (truthy cat_rate)
    then console Warn "Skipping invalid category:";; mret acc
    else
      lowered ← lift (call_toLowerCase category);
      let categoryKey := substring0 30 (hyphenate (strip_special lowered)) in
      rate_text ← lift (ToString cat_rate);
      category_text ← lift (ToString category);
      mret (<[categoryKey :=
                {| rate := extract_rate rate_text;
                   description := category_text ++ str " - " ++ rate_text |}]>
              acc).

(** items.forEach(callback) *)
Fixpoint forEach (items : list value) (acc : gmap jsstring category_info)
  : M store (gmap jsstring category_info) :=
  match items with
  | [] => mret acc
  | cat :: r => acc' ← forEach_callback cat acc; forEach r acc'
  end.

(** Lines 144-154, "Validate required fields": the two throws, and the
    default written into the answer object when cashback_categories is
    missing or is not an array. *)
Definition validate_required_fields : M store unit :=
  name ← read "card_name";
  if negb (truthy name)
  then throw (Error (str "Missing card_name in AI response"))
  else
    issuer ← read "issuer";
    if negb (truthy issuer)
    then throw (Error (str "Missing issuer in AI response"))
    else
      categories ← read "cashback_categories";
      if negb (truthy categories) || negb (isArray categories)
      then
        console Warn
          "Missing or invalid cashback_categories, using empty object";;
        write "cashback_categories" (VArray [])
      else mret tt.

(** Lines 156-183, "Convert cashback_categories array to object format". *)
Definition convert_categories : M store (gmap jsstring category_info) :=
  categories ← read "cashback_categories";
  match categories with
  | VArray items => forEach items ∅
  | _ => throw TypeError
  end.

(** Lines 185-188, "Generate card_id from card name". *)
Definition generate_card_id : M store jsstring :=
  name ← read "card_name";
  lowered ← lift (call_toLowerCase name);
  mret (hyphenate (strip_special lowered)).

Definition convertAIResponseToCardData : M store card_data :=
  console Log "Converting AI response:";;
  validate_required_fields;;
  cashbackCategories ← convert_categories;
  id ← generate_card_id;
  name ← read "card_name";
  issuer ← read "issuer";
  let result := {| card_id := id;
                   card_name := name;
                   bank := issuer;
                   card_type := str "Credit Card";
                   cashback_categories := cashbackCategories |} in
  console Log "Converted card data:";;
  mret result.

(** A call on the object [ai], from an empty console: what the call returns
    or throws, and the object and the console it leaves. *)
Definition run_convert (ai : object) : result card_data * store :=
  convertAIResponseToCardData {| aiResponse := ai; lines := [] |}.

(** ** The calls to the model (lines 8-134 and 208-349) *)

(** One line of the card list (lines 214-220, and again 282-288). *)
Definition format_card (card : value) : result jsstring :=
  categories_field ← get card (str "cashback_categories");
  categories ←
    (if truthy categories_field
     then
       described ←
         mapM (fun kv : jsstring * value =>
                 d ← get kv.2 (str "description");
                 ToString (if truthy d then d else VString kv.1))
              (entries categories_field);
       mret (join (str ", ") described)
     else mret (str "No cashback info"));
  name ← get card (str "card_name");
  name_text ← ToString name;
  bank_name ← get card (str "bank");
  bank_text ← ToString bank_name;
  mret (name_text ++ str " (" ++ bank_text ++ str "): " ++ categories).

(** cardList.map(card => ...).join('\n') *)
Definition formatCardList (cardList : list value) : result jsstring :=
  card_lines ← mapM format_card cardList;
  mret (join [10] card_lines).

(** The fixed system instruction of each of the four calls. *)
Inductive system_prompt : Type :=
  | CardExpert
  | CardImageExpert
  | CashbackOptimizer
  | ReceiptOptimizer.

(** What a call posts to the chat completions endpoint, as far as it
    depends on the arguments: the text of the user message and the image
    sent with it. *)
Record request : Type := {
  system : system_prompt;
  user_text : jsstring;
  image_url : option jsstring;
  max_tokens : option Z
}.

(** The response of the transport: its status, and what response.json()
    resolves to, a parsed body or the error it rejects with. *)
Record response : Type := {
  status : Z;
  json : result value
}.

(** response.ok: the status is in the range 200-299. *)
Definition ok (r : response) : bool := (200 <=? status r) && (status r <=? 299).

Section Transport.

(** fetch: the promise rejects (a network failure) or resolves to a
    response. *)
Variable fetch : request -> result response.

(** JSON.parse *)
Variable JSON_parse : jsstring -> result value.

(** Lines 43-54, the same text in all four functions up to the name of
    the local constant: the error thrown for a response that is not ok,
    and the parsed content of the first choice otherwise. *)
Definition read_response (r : response) : M (list console_line) value :=
  if negb (ok r)
  then
    errorData ← lift (json r);
    console ConsoleError "OpenAI API error:";;
    upstream ← lift (get errorData (str "error"));
    message ←
      match upstream with
      | VUndefined | VNull => mret VUndefined
      | _ => lift (get upstream (str "message"))
      end;
    message_text ←
      lift (ToString (if truthy message then message
                      else VString (str "Unknown error")));
    throw (Error (str "OpenAI API error: " ++ decimal (status r)
                    ++ str " - " ++ message_text))
  else
    data ← lift (json r);
    choices ← lift (get data (str "choices"));
    choice ← lift (get_first choices);
    message ← lift (get choice (str "message"));
    content ← lift (get message (str "content"));
    text ← lift (ToString content);
    lift (JSON_parse text).

(** catch (error) { console.error(label, error); throw error; } *)
Definition rethrow (label : string) (e : error)
  : M (list console_line) value :=
  console ConsoleError label;; throw e.

(** The request of searchCardWithOpenAI. *)
Definition search_request (cardName : jsstring) : request :=
  {| system := CardExpert;
     user_text :=
       str "Find the cashback rates and reward categories for: " ++ cardName;
     image_url := None;
     max_tokens := None |}.

Definition searchCardWithOpenAI (cardName : jsstring)
  : M (list console_line) value :=
  try_catch
    (r ← lift (fetch (search_request cardName));
     read_response r)
    (rethrow "Error calling OpenAI API:").

(** The request of analyzeCardImage. *)
Definition card_image_request (base64Image : jsstring) : request :=
  {| system := CardImageExpert;
     user_text :=
       str "Analyze this credit card image. Extract the card name and issuer from the image. Then provide the typical cashback categories and rates for this card based on your knowledge.";
     image_url := Some (str "data:image/jpeg;base64," ++ base64Image);
     max_tokens := Some 1000 |}.

Definition analyzeCardImage (base64Image : jsstring)
  : M (list console_line) value :=
  try_catch
    (r ← lift (fetch (card_image_request base64Image));
     read_response r)
    (rethrow "Error analyzing image:").

(** The request of recommendBestCard for a formatted card list. *)
Definition recommendation_request (formattedCardList purchase : jsstring)
  : request :=
  {| system := CashbackOptimizer;
     user_text :=
       str "Available cards:" ++ [10] ++ formattedCardList ++ [10; 10]
         ++ str "Purchase: " ++ purchase ++ [10; 10]
         ++ str "Which card should I use to maximize cashback?";
     image_url := None;
     max_tokens := None |}.

Definition recommendBestCard (cardList : list value)
    (purchaseDescription : jsstring) : M (list console_line) value :=
  try_catch
    (console Log "Recommending card for:";;
     console Log "Available cards:";;
     formattedCardList ← lift (formatCardList cardList);
     r ← lift (fetch (recommendation_request formattedCardList
                        purchaseDescription));
     recommendation ← read_response r;
     console Log "Recommendation:";;
     mret recommendation)
    (rethrow "Error recommending card:").

(** The request of recommendCardFromImage for a formatted card list. *)
Definition image_recommendation_request
    (formattedCardList base64Image : jsstring) : request :=
  {| system := ReceiptOptimizer;
     user_text :=
       str "Available cards:" ++ [10] ++ formattedCardList ++ [10; 10]
         ++ str "Analyze this receipt/purchase and recommend which card gives the best cashback.";
     image_url := Some (str "data:image/jpeg;base64," ++ base64Image);
     max_tokens := Some 1000 |}.

Definition recommendCardFromImage (base64Image : jsstring)
    (cardList : list value) : M (list console_line) value :=
  try_catch
    (console Log "Analyzing purchase image...";;
     console Log "Available cards:";;
     formattedCardList ← lift (formatCardList cardList);
     r ← lift (fetch (image_recommendation_request formattedCardList
                        base64Image));
     recommendation ← read_response r;
     console Log "Recommendation:";;
     mret recommendation)
    (rethrow "Error analyzing image:").

End Transport.

(** ** Vocabulary of the statements *)

(** An object literal with ASCII keys. *)
Definition obj (l : list (string * value)) : object :=
  (fun kv => (str kv.1, kv.2)) <$> l.

(** The parsed reply of the end-to-end example: {"card_name":"Chase Freedom
    Unlimited","issuer":"Chase","cashback_categories":[{"category":
    "Dining","rate":"3%"}]}. *)
Definition chase_reply : object :=
  obj [("card_name", VString (str "Chase Freedom Unlimited"));
       ("issuer", VString (str "Chase"));
       ("cashback_categories",
         VArray [VObject (obj [("category", VString (str "Dining"));
                               ("rate", VString (str "3%"))])])]%string.

(** The object has no property k. *)
Definition absent (ai : object) (k : string) : Prop := has_own ai (str k) = false.

(** The store a call on [ai] is in after its first line. *)
Definition entered (ai : object) : store :=
  {| aiResponse := ai; lines := [(Log, str "Converting AI response:")] |}.

(** A character of a slug: a lower-case letter, a digit or a hyphen. *)
Definition is_slug_char (c : Z) : bool :=
  Char.is_lower c || Char.is_digit c || (c =? Char.hyphen).

(** An ASCII letter or digit. *)
Definition is_alnum (c : Z) : bool :=
  Char.is_upper c || Char.is_lower c || Char.is_digit c.

(** A well-formed card name begins and ends with an ASCII letter or
    digit. *)
Definition well_formed_name (s : jsstring) : bool :=
  match head s, last s with
  | Some a, Some b => is_alnum a && is_alnum b
  | _, _ => false
  end.

(** s.replaceAll('-', '') *)
Definition without_hyphens (s : jsstring) : jsstring :=
  List.filter (fun c => negb (c =? Char.hyphen)) s.

(** The test of line 151 on the value of cashback_categories. *)
Definition needs_default (v : value) : bool :=
  negb (truthy v) || negb (isArray v).

(** The store after line 153: the empty array written into the answer
    object, and the warning on the console. *)
Definition defaulted (ai : object) : store :=
  {| aiResponse := set_own ai (str "cashback_categories") (VArray []);
     lines := [(Log, str "Converting AI response:");
               (Warn, str "Missing or invalid cashback_categories, using empty object")] |}.

(** A computation that leaves the answer object as it found it. *)
Definition pure_reader {A} (c : M store A) : Prop :=
  forall st, aiResponse (c st).2 = aiResponse st.

(** An answer with neither card_name nor an array of categories:
    {"issuer":"Chase","cashback_categories":"none"}. *)
Definition nameless_reply : object :=
  obj [("issuer", VString (str "Chase"));
       ("cashback_categories", VString (str "none"))]%string.

(** An answer with an issuer and nothing else: {"issuer":"Chase"}. *)
Definition issuer_only_reply : object :=
  obj [("issuer", VString (str "Chase"))]%string.

(** An answer without categories: {"card_name":"Chase Freedom Unlimited",
    "issuer":"Chase"}. *)
Definition uncategorised_reply : object :=
  obj [("card_name", VString (str "Chase Freedom Unlimited"));
       ("issuer", VString (str "Chase"))]%string.

(** A category entry that declares the number 0 as its rate:
    {"category":"Dining","rate":0}. *)
Definition zero_rate_entry : object :=
  obj [("category", VString (str "Dining")); ("rate", VNumber (str "0"))]%string.

(** The marker of line 218. *)
Definition no_cashback_info : jsstring := str "No cashback info".

(** A stored card whose category mapping is empty, as the conversion
    returns it for an answer without categories: {"card_name":"Chase
    Freedom Unlimited","bank":"Chase","cashback_categories":{}}. *)
Definition card_without_categories : value :=
  VObject (obj [("card_name", VString (str "Chase Freedom Unlimited"));
                ("bank", VString (str "Chase"));
                ("cashback_categories", VObject [])]%string).

(** A stored card that has no cashback_categories property:
    {"card_name":"Chase Freedom Unlimited","bank":"Chase"}. *)
Definition card_without_field : object :=
  obj [("card_name", VString (str "Chase Freedom Unlimited"));
       ("bank", VString (str "Chase"))]%string.

(** The error of line 46 for a status and a message. *)
Definition api_error (status : Z) (message : jsstring) : error :=
  Error (str "OpenAI API error: " ++ decimal status ++ str " - " ++ message).



(** A response of the model service: status 401 and the body {"error":
    {"message":"Incorrect API key provided"}}. *)
Definition unauthorized : response :=
  {| status := 401;
     json := Ok (VObject (obj [("error",
               VObject (obj [("message",
                 VString (str "Incorrect API key provided"))]))]%string)) |}.

(** Every code unit of the string is a digit. *)
Definition all_digits (s : jsstring) : Prop :=
  Forall (fun c => Char.is_digit c = true) s.

(** The string is empty or begins with a code unit outside the class p. *)
Definition stops (p : Z -> bool) (s : jsstring) : Prop :=
  match s with
  | [] => True
  | c :: _ => p c = false
  end.

(** n / 100 is a two-decimal value nearest to p / q, whichever way ties
    are broken. *)
Definition rounds_to_hundredths (p q n : Z) : Prop :=
  2 * Z.abs (100 * p - n * q) <= q.

(** The rate C3 states for the numeral [ip.fp]: the number of a two-decimal
    value nearest to its decimal value. *)
Definition stated_rate (ip fp : jsstring) (x : number) : Prop :=
  exists n,
    rounds_to_hundredths (digits_value (ip ++ fp))
      (10 ^ Z.of_nat (length fp)) n
    /\ x = Binary64.nearest n 100.

(** An answer whose one category has the rate text "N.A.":
    {"card_name":"Store Card","issuer":"Acme Bank","cashback_categories":
    [{"category":"Dining","rate":"N.A."}]}. *)
Definition unavailable_rate_reply : object :=
  obj [("card_name", VString (str "Store Card"));
       ("issuer", VString (str "Acme Bank"));
       ("cashback_categories",
         VArray [VObject (obj [("category", VString (str "Dining"));
                               ("rate", VString (str "N.A."))])])]%string.

(** * Vocabulary of the further properties *)

(** The array forEach walks: the items of cashback_categories, none when
    line 153 replaced it. *)
Definition items_of (categories : value) : list value :=
  match categories with
  | VArray items => items
  | _ => []
  end.

(** The key the callback stores a category text under (lines 165-168). *)
Definition stored_key (category : jsstring) : jsstring :=
  substring0 30 (slugify category).

(** What the callback stores for a category text and a rate text (lines
    179-182). *)
Definition stored_info (category rate_text : jsstring) : category_info :=
  {| rate := extract_rate rate_text;
     description := category ++ str " - " ++ rate_text |}.

(** How the callback treats an entry: it throws on null and undefined and
    on an entry whose truthy category is not a string or whose truthy rate
    cannot be printed; it skips an entry whose category or rate is falsy;
    it stores the others. *)
Inductive treatment : Type :=
  | Throws
  | Skips
  | Stores (category rate_text : jsstring).

(** The treatment of an entry, read off its category and its rate. *)
Definition treatment_of (cat : value) : treatment :=
  match get cat (str "category") with
  | Throw _ => Throws
  | Ok category =>
      if negb (truthy category) then Skips
      else
        match get cat (str "rate") with
        | Throw _ => Throws
        | Ok cat_rate =>
            if negb (truthy cat_rate) then Skips
            else
              match category, ToString cat_rate with
              | VString c, Ok rate_text => Stores c rate_text
              | _, _ => Throws
              end
        end
  end.

(** Induction on values, through the items of arrays and the properties
    of objects. *)
Section ValueInduction.

Variable P : value -> Prop.
Hypothesis Hundefined : P VUndefined.
Hypothesis Hnull : P VNull.
Hypothesis Hbool : forall b, P (VBool b).
Hypothesis Hnumber : forall r, P (VNumber r).
Hypothesis Hstring : forall s, P (VString s).
Hypothesis Harray : forall items, Forall P items -> P (VArray items).
Hypothesis Hobject :
  forall props, Forall (fun kv => P kv.2) props -> P (VObject props).

Fixpoint value_induction (v : value) : P v :=
  match v with
  | VUndefined => Hundefined
  | VNull => Hnull
  | VBool b => Hbool b
  | VNumber r => Hnumber r
  | VString s => Hstring s
  | VArray items =>
      Harray items
        ((fix all (l : list value) : Forall P l :=
            match l with
            | [] => @List.Forall_nil _ P
            | x :: r => @List.Forall_cons _ P x r (value_induction x) (all r)
            end) items)
  | VObject props =>
      Hobject props
        ((fix all (l : list (jsstring * value))
            : Forall (fun kv => P kv.2) l :=
            match l with
            | [] => @List.Forall_nil _ _
            | kv :: r =>
                @List.Forall_cons _ (fun kv => P kv.2) kv r
                  (value_induction kv.2) (all r)
            end) props)
  end.

End ValueInduction.

(** The callback does not throw on the entry. *)
Definition accepted_entry (cat : value) : bool :=
  match treatment_of cat with
  | Throws => false
  | _ => true
  end.

(** The mapping the loop builds from the items, or the error it ends
    with. *)
Definition built_categories (items : list value)
  : result (gmap jsstring category_info) :=
  (forEach items ∅ {| aiResponse := []; lines := [] |}).1.

(** The errors of lines 146 and 149. *)
Definition missing_card_name : error :=
  Error (str "Missing card_name in AI response").

Definition missing_issuer : error :=
  Error (str "Missing issuer in AI response").

(** The entries the loop stores, in order, with their keys; None when the
    callback throws on an item. *)
Fixpoint updates_of (items : list value)
  : option (list (jsstring * category_info)) :=
  match items with
  | [] => Some []
  | cat :: r =>
      match treatment_of cat with
      | Throws => None
      | Skips => updates_of r
      | Stores c rate_text =>
          cons (stored_key c, stored_info c rate_text) <$> updates_of r
      end
  end.

(** cashbackCategories[key] = info, for each pair in turn. *)
Definition assign_all (acc : gmap jsstring category_info)
    (us : list (jsstring * category_info)) : gmap jsstring category_info :=
  foldl (fun m kv => <[kv.1 := kv.2]> m) acc us.

(** The value of the last pair with the key k. *)
Definition last_assigned (k : jsstring) (us : list (jsstring * category_info))
  : option category_info :=
  foldl (fun o kv => if bool_decide (kv.1 = k) then Some kv.2 else o) None us.

(** The answer is one the conversion returns a record for. *)
Definition accepts (ai : object) : bool :=
  match get_own ai (str "card_name") with
  | VString (_ :: _) =>
      truthy (get_own ai (str "issuer"))
      && forallb accepted_entry
           (items_of (get_own ai (str "cashback_categories")))
  | _ => false
  end.

(** A key the callback can store under: at most thirty code units, all of
    them lower-case letters, digits or hyphens. *)
Definition category_key (k : jsstring) : Prop :=
  (length k <= 30)%nat /\ Forall (fun c => is_slug_char c = true) k.

(** A rate the callback can store: NaN, Infinity, or a finite number that
    is not negative and is either at least 10^21 or the number of a decimal
    with two places. *)
Definition storable_rate (x : number) : Prop :=
  match x with
  | NaN | Infinity => True
  | Fin m e =>
      0 <= m /\
      (Binary64.at_least_1e21 m e = true \/
       exists n, 0 <= n /\ x = Binary64.nearest n 100)
  end.

(** An entry the callback throws on: null, or an object whose category and
    rate are both truthy and whose category is not a string. *)
Definition unusable_entry (cat : value) : Prop :=
  cat = VNull \/
  exists entry,
    cat = VObject entry /\
    truthy (get_own entry (str "category")) = true /\
    truthy (get_own entry (str "rate")) = true /\
    forall s, get_own entry (str "category") <> VString s.

(** An answer whose card_name is the number 42: {"card_name":42,
    "issuer":"Chase"}. *)
Definition numeric_name_reply : object :=
  obj [("card_name", VNumber (str "42"));
       ("issuer", VString (str "Chase"))]%string.

(** An answer with a null among its categories. *)
Definition null_entry_reply : object :=
  obj [("card_name", VString (str "Chase Freedom Unlimited"));
       ("issuer", VString (str "Chase"));
       ("cashback_categories",
         VArray [VObject (obj [("category", VString (str "Dining"));
                               ("rate", VString (str "3%"))]);
                 VNull])]%string.

(** The record of the end-to-end example. *)
Definition chase_record : card_data :=
  {| card_id := str "chase-freedom-unlimited";
     card_name := VString (str "Chase Freedom Unlimited");
     bank := VString (str "Chase");
     card_type := str "Credit Card";
     cashback_categories :=
       {[ str "dining" := {| rate := Fin 3 0;
                             description := str "Dining - 3%" |} ]} |}.

(** The answer of the example with a notes property added. *)
Definition chase_reply_with_notes : object :=
  chase_reply ++ obj [("notes", VString (str "No annual fee"))]%string.

(** The two lines a recommendation call logs before it formats the card
    list. *)
Definition recommend_lines (first : string) : list console_line :=
  [(Log, str first); (Log, str "Available cards:")].

(** A stored card one of whose categories is null:
    {"card_name":"Chase Freedom Unlimited","bank":"Chase",
     "cashback_categories":{"dining":null}}. *)
Definition card_with_null_category : value :=
  VObject (obj [("card_name", VString (str "Chase Freedom Unlimited"));
                ("bank", VString (str "Chase"));
                ("cashback_categories",
                  VObject (obj [("dining", VNull)]))]%string).

(** What line 217 prints for a category: its description when it has one,
    its key otherwise. *)
Definition category_label (kv : jsstring * value) : jsstring :=
  match kv.2 with
  | VObject info =>
      match get_own info (str "description") with
      | VString (c :: d) => c :: d
      | _ => kv.1
      end
  | _ => kv.1
  end.

(** A category as the conversion stores it: an object whose description is
    a string, or which has none. *)
Definition described_category (kv : jsstring * value) : Prop :=
  exists info,
    kv.2 = VObject info /\
    ((exists d, get_own info (str "description") = VString d) \/
     get_own info (str "description") = VUndefined).

(** A stored card with two categories, the second without description. *)
Definition card_with_two_categories : object :=
  obj [("card_name", VString (str "Chase Freedom Unlimited"));
       ("bank", VString (str "Chase"));
       ("cashback_categories",
         VObject (obj [("dining",
                        VObject (obj [("rate", VNumber (str "3"));
                                      ("description",
                                       VString (str "Dining - 3%"))]));
                       ("gas", VObject (obj [("rate", VNumber (str "2"))]))]))
      ]%string.

(** Two hyphens in a row somewhere in the string. *)
Fixpoint has_double_hyphen (s : jsstring) : bool :=
  match s with
  | [] => false
  | a :: r =>
      match r with
      | b :: _ => (a =? Char.hyphen) && (b =? Char.hyphen)
      | [] => false
      end || has_double_hyphen r
  end.

(** A code unit that leaves nothing in a slug: no code unit of its lower
    case is in [a-z0-9\s]. *)
Definition is_deleted (c : Z) : bool :=
  forallb (fun d => negb (Char.is_kept d)) (Char.lower c).



(** An answer whose card name has no Latin letter and no digit: the four
    code units U+62DB U+5546 U+94F6 U+884C. *)
Definition unsluggable_reply : object :=
  obj [("card_name", VString [25307; 21830; 38134; 34892]);
       ("issuer", VString (str "CMB"))]%string.

(** The warning of line 161. *)
Definition skip_warning : console_line :=
  (Warn, str "Skipping invalid category:").

(** The entries the loop skips before it ends: all the skipped ones when no
    entry throws, those before the first throwing entry otherwise. *)
Fixpoint skipped (items : list value) : nat :=
  match items with
  | [] => O
  | cat :: r =>
      match treatment_of cat with
      | Throws => O
      | Skips => S (skipped r)
      | Stores _ _ => skipped r
      end
  end.

(** The console after a call that began with the console [con]: the call
    only added lines; when it threw, the last line is the console.error of
    its catch block; when it returned, every line added is a
    console.log. *)
Definition logged (label : string) (con : list console_line)
    (run : result value * list console_line) : Prop :=
  exists added,
    run.2 = con ++ added /\
    match run.1 with
    | Throw _ => last added = Some (ConsoleError, str label)
    | Ok _ => Forall (fun line : console_line => line.1 = Log) added
    end.

(** The body of the response is a chat completion whose first choice has
    the string [content] as the content of its message. *)
Definition carries_content (r : response) (content : jsstring) : Prop :=
  exists body choice rest message,
    json r = Ok (VObject body) /\
    get_own body (str "choices") = VArray (VObject choice :: rest) /\
    get_own choice (str "message") = VObject message /\
    get_own message (str "content") = VString content.

(** The body of the response is an object without choices: the property
    is missing, or is an empty array. *)
Definition has_no_choice (r : response) : Prop :=
  exists body,
    json r = Ok (VObject body) /\
    (get_own body (str "choices") = VUndefined \/
     get_own body (str "choices") = VArray []).

(** What a call makes of the outcome of JSON.parse, given the lines that it
    logs before and after the request and the label of its catch block. *)
Definition outcome_of_parse (parsed : result value)
    (con : list console_line) (before after : list console_line)
    (label : string) : result value * list console_line :=
  match parsed with
  | Ok v => (Ok v, con ++ before ++ after)
  | Throw e => (Throw e, con ++ before ++ [(ConsoleError, str label)])
  end.

(** A chat completion with one choice:
    {"choices":[{"message":{"content":content}}]}, with status 200. *)
Definition completion (content : jsstring) : response :=
  {| status := 200;
     json := Ok (VObject (obj [("choices",
               VArray [VObject (obj [("message",
                 VObject (obj [("content", VString content)]))])])]%string)) |}.

(** A completion without choices: {"choices":[]}, with status 200. *)
Definition empty_completion : response :=
  {| status := 200;
     json := Ok (VObject (obj [("choices", VArray [])]%string)) |}.

(** JSON.parse on the texts of the examples: the text null parses to null,
    any other text is taken not to be JSON. *)
Definition parse_null (text : jsstring) : result value :=
  if jsstring_eqb text (str "null") then Ok VNull else Throw SyntaxError.


(** * Properties *)

#[local] Arguments str : simpl never.

(** ** The end-to-end example *)

(** C1: on the reply of the example the conversion returns the record with
    card_id "chase-freedom-unlimited", card_name "Chase Freedom Unlimited",
    bank "Chase", card_type "Credit Card", and a category mapping whose one
    key "dining" holds rate 3 and description "Dining - 3%". *)
Theorem chase_freedom_unlimited_record :
  (run_convert chase_reply).1 =
  Ok {| card_id := str "chase-freedom-unlimited";
        card_name := VString (str "Chase Freedom Unlimited");
        bank := VString (str "Chase");
        card_type := str "Credit Card";
        cashback_categories :=
          {[ str "dining" := {| rate := Fin 3 0;
                                description := str "Dining - 3%" |} ]} |}.
Proof. vm_compute. reflexivity. Qed.

(** ** Validation of the required fields *)

Lemma absent_get_own ai k : has_own ai k = false -> get_own ai k = VUndefined.
Proof.
  induction ai as [|[k' v] ai IH]; simpl; [reflexivity|].
  destruct (jsstring_eqb k' k); simpl; [discriminate | exact IH].
Qed.

Lemma convert_missing_card_name ai :
  truthy (get_own ai (str "card_name")) = false ->
  run_convert ai =
  (Throw (Error (str "Missing card_name in AI response")), entered ai).
Proof.
  intros H.
  unfold run_convert, convertAIResponseToCardData, validate_required_fields.
  unfold mbind, M_bind, console, read, print, store_console; simpl.
  rewrite H. reflexivity.
Qed.

Lemma convert_missing_issuer ai :
  truthy (get_own ai (str "card_name")) = true ->
  truthy (get_own ai (str "issuer")) = false ->
  run_convert ai =
  (Throw (Error (str "Missing issuer in AI response")), entered ai).
Proof.
  intros H1 H2.
  unfold run_convert, convertAIResponseToCardData, validate_required_fields.
  unfold mbind, M_bind, console, read, print, store_console; simpl.
  rewrite H1; simpl. rewrite H2. reflexivity.
Qed.

(** C2: when card_name or issuer is absent from the parsed answer the call
    throws the error that names the missing field; it has then printed its
    first line and nothing else, the answer object is as it was passed in,
    and no record is returned. *)
Theorem missing_required_field_throws (ai : object) :
  absent ai "card_name" \/ absent ai "issuer" ->
  run_convert ai =
  (Throw (Error (if truthy (get_own ai (str "card_name"))
                 then str "Missing issuer in AI response"
                 else str "Missing card_name in AI response")),
   entered ai).
Proof.
  intros H.
  destruct (truthy (get_own ai (str "card_name"))) eqn:Hname.
  - destruct H as [H | H].
    + apply absent_get_own in H. rewrite H in Hname. discriminate.
    + apply convert_missing_issuer; [assumption|].
      apply absent_get_own in H. rewrite H. reflexivity.
  - apply convert_missing_card_name; assumption.
Qed.

(** ** The derived identifier *)

Section Slug.

Lemma lower_of_slug_char c : is_slug_char c = true -> Char.lower c = [c].
Proof.
  unfold is_slug_char, Char.lower, Char.is_lower, Char.is_digit,
    Char.is_upper, Char.hyphen.
  intros H.
  repeat match goal with
         | |- context [if ?b then _ else _] => destruct b eqn:?
         end; try reflexivity; lia.
Qed.

Lemma slug_char_not_space c : is_slug_char c = true -> Char.is_space c = false.
Proof.
  unfold is_slug_char, Char.is_space, Char.is_lower, Char.is_digit,
    Char.hyphen.
  intros H. lia.
Qed.

Lemma kept_not_space_is_slug c :
  Char.is_kept c = true -> Char.is_space c = false -> is_slug_char c = true.
Proof.
  unfold Char.is_kept, is_slug_char. intros H1 H2. rewrite H2 in H1.
  rewrite orb_false_r in H1. rewrite H1. reflexivity.
Qed.

Lemma hyphenate_from_slug b s :
  Forall (fun c => Char.is_kept c = true) s ->
  Forall (fun c => is_slug_char c = true) (hyphenate_from b s).
Proof.
  intros H. revert b.
  induction H as [|c s Hc Hs IH]; intros b; simpl; [constructor|].
  destruct (Char.is_space c) eqn:Hsp.
  - destruct b; [apply IH|]. constructor; [reflexivity | apply IH].
  - constructor; [apply kept_not_space_is_slug; assumption | apply IH].
Qed.

Lemma strip_special_kept s :
  Forall (fun c => Char.is_kept c = true) (strip_special s).
Proof.
  unfold strip_special. induction s as [|c s IH]; simpl; [constructor|].
  destruct (Char.is_kept c) eqn:Hc; [constructor; assumption | assumption].
Qed.

Lemma slugify_chars s : Forall (fun c => is_slug_char c = true) (slugify s).
Proof. apply hyphenate_from_slug, strip_special_kept. Qed.

Lemma toLowerCase_cons c s :
  toLowerCase (c :: s) = Char.lower c ++ toLowerCase s.
Proof. reflexivity. Qed.

Lemma toLowerCase_app s t : toLowerCase (s ++ t) = toLowerCase s ++ toLowerCase t.
Proof.
  induction s as [|c s IH]; [reflexivity|].
  rewrite <- app_comm_cons, !toLowerCase_cons, IH, app_assoc. reflexivity.
Qed.

Lemma toLowerCase_slug s :
  Forall (fun c => is_slug_char c = true) s -> toLowerCase s = s.
Proof.
  induction 1 as [|c s Hc Hs IH]; [reflexivity|].
  rewrite toLowerCase_cons, (lower_of_slug_char c Hc), IH. reflexivity.
Qed.

Lemma strip_special_slug s :
  Forall (fun c => is_slug_char c = true) s ->
  strip_special s = without_hyphens s.
Proof.
  unfold strip_special, without_hyphens.
  induction 1 as [|c s Hc Hs IH]; simpl; [reflexivity|].
  rewrite IH.
  replace (Char.is_kept c) with (negb (c =? Char.hyphen)); [reflexivity|].
  pose proof (slug_char_not_space c Hc) as Hsp.
  unfold Char.is_kept. rewrite Hsp, orb_false_r.
  revert Hc. unfold is_slug_char, Char.is_lower, Char.is_digit, Char.hyphen.
  intros Hc. lia.
Qed.

Lemma hyphenate_from_no_space b s :
  Forall (fun c => Char.is_space c = false) s -> hyphenate_from b s = s.
Proof.
  intros H. revert b.
  induction H as [|c s Hc Hs IH]; intros b; simpl; [reflexivity|].
  rewrite Hc, IH. reflexivity.
Qed.

Lemma without_hyphens_slug s :
  Forall (fun c => is_slug_char c = true) s ->
  Forall (fun c => Char.is_space c = false) (without_hyphens s).
Proof.
  unfold without_hyphens.
  induction 1 as [|c s Hc Hs IH]; simpl; [constructor|].
  destruct (negb (c =? Char.hyphen)); [|assumption].
  constructor; [apply slug_char_not_space|]; assumption.
Qed.

(** Deriving an identifier from an identifier deletes its hyphens. *)
Lemma slugify_slugify s : slugify (slugify s) = without_hyphens (slugify s).
Proof.
  pose proof (slugify_chars s) as H.
  unfold slugify at 1.
  rewrite (toLowerCase_slug _ H), (strip_special_slug _ H).
  apply hyphenate_from_no_space, without_hyphens_slug, H.
Qed.

Lemma lower_of_alnum c :
  is_alnum c = true ->
  exists c', Char.lower c = [c'] /\ Char.is_kept c' = true
             /\ Char.is_space c' = false /\ c' <> Char.hyphen.
Proof.
  unfold is_alnum, Char.lower, Char.is_kept, Char.is_space, Char.is_lower,
    Char.is_digit, Char.is_upper, Char.hyphen.
  intros H.
  destruct ((65 <=? c) && (c <=? 90)) eqn:Hup.
  - exists (c + 32). split; [reflexivity|]. lia.
  - exists c. split; [|lia].
    repeat match goal with
           | |- context [if ?b then _ else _] => destruct b eqn:?
           end; try reflexivity; lia.
Qed.

Lemma strip_special_app s t :
  strip_special (s ++ t) = strip_special s ++ strip_special t.
Proof. apply List.filter_app. Qed.

Lemma hyphenate_from_snoc b s c :
  Char.is_space c = false ->
  hyphenate_from b (s ++ [c]) = hyphenate_from b s ++ [c].
Proof.
  intros Hc. revert b.
  induction s as [|d s IH]; intros b; simpl.
  - rewrite Hc. reflexivity.
  - destruct (Char.is_space d); [destruct b|]; rewrite IH; reflexivity.
Qed.

Lemma slugify_head a r :
  is_alnum a = true -> head (slugify (a :: r)) <> Some Char.hyphen.
Proof.
  intros Ha. destruct (lower_of_alnum a Ha) as (c & Hl & Hk & Hs & Hh).
  unfold slugify, hyphenate, strip_special.
  rewrite toLowerCase_cons, Hl.
  cbn [app List.filter]. rewrite Hk.
  cbn [hyphenate_from]. rewrite Hs.
  cbn [head]. congruence.
Qed.

Lemma slugify_last r b :
  is_alnum b = true -> last (slugify (r ++ [b])) <> Some Char.hyphen.
Proof.
  intros Hb. destruct (lower_of_alnum b Hb) as (c & Hl & Hk & Hs & Hh).
  unfold slugify.
  rewrite toLowerCase_app, strip_special_app.
  change (toLowerCase [b]) with (Char.lower b ++ []).
  rewrite Hl. unfold strip_special at 2.
  cbn [app List.filter]. rewrite Hk.
  unfold hyphenate. rewrite hyphenate_from_snoc by assumption.
  rewrite last_snoc. congruence.
Qed.

Lemma well_formed_slug_ends s :
  well_formed_name s = true ->
  head (slugify s) <> Some Char.hyphen /\ last (slugify s) <> Some Char.hyphen.
Proof.
  unfold well_formed_name. intros H.
  destruct (head s) as [a|] eqn:Hhead; [|discriminate].
  destruct (last s) as [b|] eqn:Hlast; [|discriminate].
  apply andb_prop in H as [Ha Hb]. split.
  - destruct s as [|a' r]; [discriminate|]. simpl in Hhead.
    injection Hhead as ->. apply slugify_head, Ha.
  - apply last_Some in Hlast as [r ->]. apply slugify_last, Hb.
Qed.

End Slug.

(** ** The conversion past its validation *)

Lemma jsstring_eqb_eq a b : jsstring_eqb a b = true <-> a = b.
Proof. unfold jsstring_eqb. apply bool_decide_eq_true. Qed.

Lemma jsstring_eqb_neq a b : jsstring_eqb a b = false <-> a <> b.
Proof. unfold jsstring_eqb. apply bool_decide_eq_false. Qed.

Lemma get_own_set_own o k v : get_own (set_own o k v) k = v.
Proof.
  induction o as [|[k' v'] o IH]; simpl.
  - assert (jsstring_eqb k k = true) as -> by (apply jsstring_eqb_eq; reflexivity).
    reflexivity.
  - destruct (jsstring_eqb k' k) eqn:E; simpl; rewrite E; [reflexivity | exact IH].
Qed.

Lemma get_own_set_own_other o k v k' :
  k' <> k -> get_own (set_own o k v) k' = get_own o k'.
Proof.
  intros Hne. induction o as [|[k0 v0] o IH]; simpl.
  - assert (jsstring_eqb k k' = false) as ->
        by (apply jsstring_eqb_neq; congruence).
    reflexivity.
  - destruct (jsstring_eqb k0 k) eqn:E; simpl.
    + apply jsstring_eqb_eq in E. subst k0.
      assert (jsstring_eqb k k' = false) as ->
          by (apply jsstring_eqb_neq; congruence).
      reflexivity.
    + destruct (jsstring_eqb k0 k'); [reflexivity | exact IH].
Qed.

(** The callback and the loop never write to the answer object. *)
Lemma forEach_callback_frame cat acc st :
  aiResponse (forEach_callback cat acc st).2 = aiResponse st.
Proof.
  unfold forEach_callback, mbind, M_bind, lift, console, mret, M_ret.
  destruct (get cat (str "category")) as [category|]; [|reflexivity].
  destruct (truthy category); [|reflexivity]. simpl.
  destruct (get cat (str "rate")) as [cat_rate|]; [|reflexivity].
  destruct (truthy cat_rate); [|reflexivity]. simpl.
  destruct (call_toLowerCase category); [|reflexivity].
  destruct (ToString cat_rate); [|reflexivity].
  destruct (ToString category); reflexivity.
Qed.

Lemma forEach_frame items acc st :
  aiResponse (forEach items acc st).2 = aiResponse st.
Proof.
  revert acc st. induction items as [|cat items IH]; intros acc st.
  - reflexivity.
  - simpl. unfold mbind, M_bind.
    pose proof (forEach_callback_frame cat acc st) as Hcb.
    destruct (forEach_callback cat acc st) as [[acc'|e] st']; simpl in *.
    + rewrite IH. exact Hcb.
    + exact Hcb.
Qed.

Lemma validate_required_fields_cases ai :
  validate_required_fields (entered ai) =
  if negb (truthy (get_own ai (str "card_name")))
  then (Throw (Error (str "Missing card_name in AI response")), entered ai)
  else if negb (truthy (get_own ai (str "issuer")))
  then (Throw (Error (str "Missing issuer in AI response")), entered ai)
  else if needs_default (get_own ai (str "cashback_categories"))
  then (Ok tt, defaulted ai)
  else (Ok tt, entered ai).
Proof.
  unfold validate_required_fields, needs_default.
  unfold mbind, M_bind, read, entered; simpl.
  destruct (truthy (get_own ai (str "card_name"))); [|reflexivity].
  simpl. destruct (truthy (get_own ai (str "issuer"))); [|reflexivity].
  simpl.
  destruct (negb (truthy (get_own ai (str "cashback_categories")))
            || negb (isArray (get_own ai (str "cashback_categories"))));
    reflexivity.
Qed.

Lemma run_convert_after_validation ai st1 :
  validate_required_fields (entered ai) = (Ok tt, st1) ->
  run_convert ai =
  match convert_categories st1 with
  | (Throw e, st2) => (Throw e, st2)
  | (Ok cats, st2) =>
      match generate_card_id st2 with
      | (Throw e, st3) => (Throw e, st3)
      | (Ok id, st3) =>
          (Ok {| card_id := id;
                 card_name := get_own (aiResponse st3) (str "card_name");
                 bank := get_own (aiResponse st3) (str "issuer");
                 card_type := str "Credit Card";
                 cashback_categories := cats |},
           print (Log, str "Converted card data:") st3)
      end
  end.
Proof.
  intros H. unfold run_convert, convertAIResponseToCardData.
  unfold mbind at 1, M_bind at 1.
  change (console Log "Converting AI response:"
            {| aiResponse := ai; lines := [] |}) with (Ok tt, entered ai).
  cbv beta iota. unfold mbind at 1, M_bind at 1. rewrite H.
  unfold mbind at 1, M_bind at 1.
  destruct (convert_categories st1) as [[cats|e] st2]; [|reflexivity].
  unfold mbind at 1, M_bind at 1.
  destruct (generate_card_id st2) as [[id|e] st3]; reflexivity.
Qed.

Lemma run_convert_validation_throws ai e st1 :
  validate_required_fields (entered ai) = (Throw e, st1) ->
  run_convert ai = (Throw e, st1).
Proof.
  intros H. unfold run_convert, convertAIResponseToCardData.
  unfold mbind at 1, M_bind at 1.
  change (console Log "Converting AI response:"
            {| aiResponse := ai; lines := [] |}) with (Ok tt, entered ai).
  cbv beta iota. unfold mbind at 1, M_bind at 1. rewrite H. reflexivity.
Qed.

Lemma convert_categories_pure : pure_reader convert_categories.
Proof.
  intros st. unfold convert_categories, mbind, M_bind, read.
  destruct (get_own (aiResponse st) (str "cashback_categories"));
    try reflexivity.
  apply forEach_frame.
Qed.

Lemma generate_card_id_run st :
  generate_card_id st =
  (match call_toLowerCase (get_own (aiResponse st) (str "card_name")) with
   | Ok lowered => Ok (hyphenate (strip_special lowered))
   | Throw e => Throw e
   end, st).
Proof.
  unfold generate_card_id, mbind, M_bind, read, lift.
  destruct (call_toLowerCase _); reflexivity.
Qed.

(** What the call leaves in the caller's object. *)
Lemma run_convert_object ai :
  aiResponse (run_convert ai).2 =
  if truthy (get_own ai (str "card_name"))
     && truthy (get_own ai (str "issuer"))
     && needs_default (get_own ai (str "cashback_categories"))
  then set_own ai (str "cashback_categories") (VArray [])
  else ai.
Proof.
  pose proof (validate_required_fields_cases ai) as Hv.
  destruct (truthy (get_own ai (str "card_name"))); cbn [negb andb] in *;
    [|rewrite (run_convert_validation_throws _ _ _ Hv); reflexivity].
  destruct (truthy (get_own ai (str "issuer"))); cbn [negb andb] in *;
    [|rewrite (run_convert_validation_throws _ _ _ Hv); reflexivity].
  assert (exists st1, validate_required_fields (entered ai) = (Ok tt, st1)
          /\ aiResponse st1 =
             if needs_default (get_own ai (str "cashback_categories"))
             then set_own ai (str "cashback_categories") (VArray [])
             else ai) as (st1 & Hst1 & <-).
  { rewrite Hv. destruct (needs_default _); eexists; split; reflexivity. }
  rewrite (run_convert_after_validation _ _ Hst1).
  pose proof (convert_categories_pure st1) as Hc.
  destruct (convert_categories st1) as [[cats|e] st2]; cbn [snd] in *;
    [|exact Hc].
  rewrite generate_card_id_run.
  destruct (call_toLowerCase _); exact Hc.
Qed.

Lemma needs_default_not_array v : needs_default v = negb (isArray v).
Proof.
  unfold needs_default. destruct v; simpl; rewrite ?orb_true_r; reflexivity.
Qed.

Lemma get_own_defaulted ai k :
  k <> str "cashback_categories" ->
  get_own (set_own ai (str "cashback_categories") (VArray [])) k = get_own ai k.
Proof. apply get_own_set_own_other. Qed.

Lemma missing_required_field_throws_witness :
  run_convert issuer_only_reply =
  (Throw (Error (str "Missing card_name in AI response")),
   entered issuer_only_reply).
Proof.
  apply (missing_required_field_throws issuer_only_reply).
  left. reflexivity.
Defined.

(** ** A missing or malformed cashback_categories *)

(** C4, as the code has it: when card_name is a non-empty string, issuer
    is present and truthy, and cashback_categories is absent or is not an
    array, the call returns the record with an empty category mapping; it
    has printed the warning and written the empty array into the answer
    object. *)
Theorem default_categories_record (ai : object) (name : jsstring) :
  get_own ai (str "card_name") = VString name ->
  name <> [] ->
  truthy (get_own ai (str "issuer")) = true ->
  isArray (get_own ai (str "cashback_categories")) = false ->
  run_convert ai =
  (Ok {| card_id := slugify name;
         card_name := VString name;
         bank := get_own ai (str "issuer");
         card_type := str "Credit Card";
         cashback_categories := ∅ |},
   {| aiResponse := set_own ai (str "cashback_categories") (VArray []);
      lines := [(Log, str "Converting AI response:");
                (Warn, str "Missing or invalid cashback_categories, using empty object");
                (Log, str "Converted card data:")] |}).
Proof.
  intros Hname Hne Hissuer Harr.
  pose proof (validate_required_fields_cases ai) as Hv.
  rewrite Hname, Hissuer, needs_default_not_array, Harr in Hv.
  assert (truthy (VString name) = true) as Ht by (destruct name; [contradiction | reflexivity]).
  rewrite Ht in Hv. cbn [negb] in Hv.
  rewrite (run_convert_after_validation _ _ Hv).
  unfold convert_categories, mbind, M_bind, read, defaulted.
  cbn [aiResponse]. rewrite get_own_set_own. cbn [forEach].
  unfold mret, M_ret. rewrite generate_card_id_run. cbn [aiResponse].
  rewrite !get_own_defaulted by (vm_compute; discriminate).
  rewrite Hname. reflexivity.
Qed.

Lemma default_categories_record_witness :
  run_convert uncategorised_reply =
  (Ok {| card_id := str "chase-freedom-unlimited";
         card_name := VString (str "Chase Freedom Unlimited");
         bank := VString (str "Chase");
         card_type := str "Credit Card";
         cashback_categories := ∅ |},
   {| aiResponse :=
        set_own uncategorised_reply (str "cashback_categories") (VArray []);
      lines := [(Log, str "Converting AI response:");
                (Warn, str "Missing or invalid cashback_categories, using empty object");
                (Log, str "Converted card data:")] |}).
Proof.
  apply (default_categories_record uncategorised_reply
           (str "Chase Freedom Unlimited")).
  - reflexivity.
  - discriminate.
  - reflexivity.
  - reflexivity.
Defined.

(** C4 as stated fails: in this answer cashback_categories is a string, not
    an array, and the call throws, because card_name is missing. *)
Lemma default_categories_needs_valid_fields :
  isArray (get_own nameless_reply (str "cashback_categories")) = false /\
  (run_convert nameless_reply).1 =
  Throw (Error (str "Missing card_name in AI response")).
Proof. split; reflexivity. Qed.

(** ** The write into the caller's object *)

(** C9, as the code has it: the call can change the object it is passed;
    it writes the empty array under cashback_categories exactly when
    card_name and issuer are both truthy and cashback_categories is absent
    or not an array, and leaves the object as it was in every other case;
    every other property reads after the call as before it. *)
Theorem answer_object_after_call :
  (exists ai : object, aiResponse (run_convert ai).2 <> ai) /\
  (forall ai : object,
     aiResponse (run_convert ai).2 =
     if truthy (get_own ai (str "card_name"))
        && truthy (get_own ai (str "issuer"))
        && negb (isArray (get_own ai (str "cashback_categories")))
     then set_own ai (str "cashback_categories") (VArray [])
     else ai) /\
  (forall (ai : object) (k : jsstring),
     k <> str "cashback_categories" ->
     get_own (aiResponse (run_convert ai).2) k = get_own ai k).
Proof.
  split; [|split].
  - exists uncategorised_reply. vm_compute. discriminate.
  - intros ai. rewrite run_convert_object, needs_default_not_array.
    reflexivity.
  - intros ai k Hk. rewrite run_convert_object.
    destruct (_ && _); [apply get_own_defaulted, Hk | reflexivity].
Qed.

(** C9 as stated fails: this answer has no cashback_categories, and the
    call, which throws at the check of card_name, writes nothing into it. *)
Lemma absent_categories_not_always_written :
  absent issuer_only_reply "cashback_categories" /\
  aiResponse (run_convert issuer_only_reply).2 = issuer_only_reply /\
  get_own (aiResponse (run_convert issuer_only_reply).2)
    (str "cashback_categories") = VUndefined.
Proof. split; [reflexivity|]. split; reflexivity. Qed.

(** ** The identifier of the record *)

(** The identifier of a returned record is the slug of the card_name of
    the answer, which is then a string. *)
Lemma convert_card_id ai r :
  (run_convert ai).1 = Ok r ->
  exists name, get_own ai (str "card_name") = VString name
               /\ card_id r = slugify name.
Proof.
  intros Hr.
  pose proof (validate_required_fields_cases ai) as Hv.
  destruct (truthy (get_own ai (str "card_name"))); cbn [negb] in Hv;
    [|rewrite (run_convert_validation_throws _ _ _ Hv) in Hr; discriminate].
  destruct (truthy (get_own ai (str "issuer"))); cbn [negb] in Hv;
    [|rewrite (run_convert_validation_throws _ _ _ Hv) in Hr; discriminate].
  assert (exists st1, validate_required_fields (entered ai) = (Ok tt, st1)
          /\ get_own (aiResponse st1) (str "card_name")
             = get_own ai (str "card_name")) as (st1 & Hst1 & Hsame).
  { rewrite Hv. destruct (needs_default _); eexists; (split; [reflexivity|]).
    - apply get_own_defaulted. vm_compute. discriminate.
    - reflexivity. }
  rewrite (run_convert_after_validation _ _ Hst1) in Hr.
  pose proof (convert_categories_pure st1) as Hc.
  destruct (convert_categories st1) as [[cats|e] st2]; cbn [fst snd] in *;
    [|discriminate].
  rewrite generate_card_id_run, Hc, Hsame in Hr.
  destruct (get_own ai (str "card_name")) as [| |b|n|name|l|o];
    try discriminate.
  exists name. split; [reflexivity|].
  cbn in Hr. injection Hr as <-. reflexivity.
Qed.

(** C5, as the code has it: the identifier of a record is a function of
    the card name alone; it holds only lower-case letters, digits and
    hyphens; for a name that begins and ends with a letter or a digit it
    neither begins nor ends with a hyphen; and deriving an identifier from
    an identifier deletes its hyphens, so that it is left unchanged exactly
    when it has none. *)
Theorem card_id_slug_properties (name : jsstring) :
  (forall ai r, get_own ai (str "card_name") = VString name ->
                (run_convert ai).1 = Ok r -> card_id r = slugify name) /\
  Forall (fun c => is_slug_char c = true) (slugify name) /\
  (well_formed_name name = true ->
   head (slugify name) <> Some Char.hyphen /\
   last (slugify name) <> Some Char.hyphen) /\
  slugify (slugify name) = without_hyphens (slugify name) /\
  (slugify (slugify name) = slugify name <-> Char.hyphen ∉ slugify name).
Proof.
  split; [|split; [|split; [|split]]].
  - intros ai r Hname Hr.
    destruct (convert_card_id ai r Hr) as (name' & Hname' & Hid).
    rewrite Hname in Hname'. injection Hname' as <-. exact Hid.
  - apply slugify_chars.
  - apply well_formed_slug_ends.
  - apply slugify_slugify.
  - rewrite slugify_slugify. unfold without_hyphens.
    generalize (slugify name) as s. intros s. split.
    + intros Heq Hin. apply list_elem_of_In in Hin.
      rewrite <- Heq in Hin. apply List.filter_In in Hin as [_ Hin].
      rewrite Z.eqb_refl in Hin. discriminate.
    + intros Hnot. induction s as [|c s IH]; [reflexivity|]. simpl.
      destruct (c =? Char.hyphen) eqn:E.
      * apply Z.eqb_eq in E. subst c. exfalso. apply Hnot. left.
      * simpl. f_equal. apply IH. intros Hin. apply Hnot. right. exact Hin.
Qed.

Lemma card_id_slug_properties_witness :
  head (slugify (str "Chase Freedom Unlimited")) <> Some Char.hyphen /\
  last (slugify (str "Chase Freedom Unlimited")) <> Some Char.hyphen.
Proof.
  apply (card_id_slug_properties (str "Chase Freedom Unlimited")).
  reflexivity.
Defined.

(** C5 as stated fails: the identifier "chase-freedom-unlimited" is not
    left unchanged when an identifier is derived from it again; its hyphens
    go. *)
Lemma slug_of_slug_loses_hyphens :
  slugify (str "Chase Freedom Unlimited") = str "chase-freedom-unlimited" /\
  slugify (str "chase-freedom-unlimited") = str "chasefreedomunlimited" /\
  slugify (slugify (str "Chase Freedom Unlimited"))
    <> slugify (str "Chase Freedom Unlimited").
Proof.
  split; [reflexivity|]. split; [reflexivity|]. vm_compute. discriminate.
Qed.

(** ** Entries the loop skips *)

Lemma truthy_false_iff v :
  truthy v = false <->
  v = VUndefined \/ v = VNull \/ v = VBool false \/ v = VNumber (str "0")
  \/ v = VNumber (str "NaN") \/ v = VString [].
Proof.
  split.
  - destruct v as [| |b|n|s|l|o]; simpl; intros H; auto.
    + destruct b; [discriminate | auto].
    + apply negb_false_iff, orb_true_iff in H.
      destruct H as [H|H]; apply jsstring_eqb_eq in H; subst; auto 6.
    + destruct s; [auto 6 | discriminate].
    + discriminate.
    + discriminate.
  - intros [->|[->|[->|[->|[->| ->]]]]]; reflexivity.
Qed.

(** The mapping the loop builds does not depend on the console. *)
Lemma forEach_callback_result cat acc st st' :
  (forEach_callback cat acc st).1 = (forEach_callback cat acc st').1.
Proof.
  unfold forEach_callback, mbind, M_bind, lift, console, mret, M_ret.
  destruct (get cat (str "category")) as [category|]; [|reflexivity].
  destruct (truthy category); [|reflexivity]. simpl.
  destruct (get cat (str "rate")) as [cat_rate|]; [|reflexivity].
  destruct (truthy cat_rate); [|reflexivity]. simpl.
  destruct (call_toLowerCase category); [|reflexivity].
  destruct (ToString cat_rate); [|reflexivity].
  destruct (ToString category); reflexivity.
Qed.

Lemma forEach_result items acc st st' :
  (forEach items acc st).1 = (forEach items acc st').1.
Proof.
  revert acc st st'. induction items as [|cat items IH]; intros acc st st'.
  - reflexivity.
  - simpl. unfold mbind, M_bind.
    pose proof (forEach_callback_result cat acc st st') as Hcb.
    destruct (forEach_callback cat acc st) as [[a|e] s];
      destruct (forEach_callback cat acc st') as [[a'|e'] s'];
      simpl in Hcb; try discriminate.
    + injection Hcb as <-. apply IH.
    + exact Hcb.
Qed.

Lemma forEach_app pre post acc st :
  forEach (pre ++ post) acc st =
  match forEach pre acc st with
  | (Ok acc', st') => forEach post acc' st'
  | (Throw e, st') => (Throw e, st')
  end.
Proof.
  revert acc st. induction pre as [|cat pre IH]; intros acc st.
  - reflexivity.
  - simpl. unfold mbind, M_bind.
    destruct (forEach_callback cat acc st) as [[a|e] s]; [apply IH | reflexivity].
Qed.

(** C10: an entry whose category or rate is falsy (0, "", false, null, or
    missing) is skipped: the callback prints its warning and returns with
    the category mapping as it found it, and the loop builds the mapping it
    would build without the entry. *)
Theorem falsy_entry_is_skipped (entry : object) :
  truthy (get_own entry (str "category")) = false \/
  truthy (get_own entry (str "rate")) = false ->
  (forall acc st,
     forEach_callback (VObject entry) acc st =
     (Ok acc, print (Warn, str "Skipping invalid category:") st)) /\
  (forall pre post acc st,
     (forEach (pre ++ VObject entry :: post) acc st).1 =
     (forEach (pre ++ post) acc st).1).
Proof.
  intros H.
  assert (forall acc st,
            forEach_callback (VObject entry) acc st =
            (Ok acc, print (Warn, str "Skipping invalid category:") st)) as Hcb.
  { intros acc st.
    unfold forEach_callback, mbind, M_bind, lift, get, console, mret, M_ret.
    destruct (truthy (get_own entry (str "category"))) eqn:Hc; [|reflexivity].
    destruct H as [H|H]; [discriminate|]. simpl. rewrite H. reflexivity. }
  split; [exact Hcb|].
  intros pre post acc st. rewrite !forEach_app.
  destruct (forEach pre acc st) as [[acc'|e] st']; [|reflexivity].
  cbn [forEach]. unfold mbind at 1, M_bind at 1. rewrite Hcb.
  apply forEach_result.
Qed.

Lemma falsy_entry_is_skipped_witness :
  forEach_callback (VObject zero_rate_entry) ∅
    {| aiResponse := []; lines := [] |} =
  (Ok ∅, {| aiResponse := [];
            lines := [(Warn, str "Skipping invalid category:")] |}).
Proof.
  apply (falsy_entry_is_skipped zero_rate_entry).
  right. reflexivity.
Defined.

(** ** The card list of the recommendation prompts *)

Lemma starts_with_app sub rest : starts_with sub (sub ++ rest) = true.
Proof.
  induction sub as [|c sub IH]; [destruct rest; reflexivity|].
  simpl. rewrite Z.eqb_refl. exact IH.
Qed.

Lemma includes_unfold sub s :
  includes sub s =
  starts_with sub s || match s with [] => false | _ :: r => includes sub r end.
Proof. destruct s; reflexivity. Qed.

Lemma includes_app sub before rest : includes sub (before ++ sub ++ rest) = true.
Proof.
  induction before as [|c before IH].
  - rewrite includes_unfold. cbn [app]. rewrite starts_with_app. reflexivity.
  - rewrite includes_unfold. cbn [app]. rewrite IH. apply orb_true_r.
Qed.

Lemma join_cons sep x l :
  exists rest, join sep (x :: l) = x ++ rest.
Proof.
  destruct l as [|y l]; simpl.
  - exists []. rewrite app_nil_r. reflexivity.
  - eexists. reflexivity.
Qed.

Lemma join_middle sep before x rest :
  exists l r, join sep (before ++ x :: rest) = l ++ x ++ r.
Proof.
  induction before as [|y before IH].
  - destruct (join_cons sep x rest) as [r Hr]. exists [], r. exact Hr.
  - destruct IH as (l & r & IH).
    change ((y :: before) ++ x :: rest) with (y :: (before ++ x :: rest)).
    destruct (before ++ x :: rest) eqn:E.
    + destruct before; discriminate.
    + change (join sep (y :: l0 :: l1))
        with (y ++ sep ++ join sep (l0 :: l1)).
      rewrite IH. exists (y ++ sep ++ l), r.
      rewrite <- !app_assoc. reflexivity.
Qed.

Lemma mapM_result_app {A B} (f : A -> result B) l1 l2 k1 k2 :
  mapM f l1 = Ok k1 -> mapM f l2 = Ok k2 -> mapM f (l1 ++ l2) = Ok (k1 ++ k2).
Proof.
  revert k1. induction l1 as [|x l1 IH]; intros k1 H1 H2.
  - injection H1 as <-. exact H2.
  - cbn [mapM app] in *. unfold mbind, result_bind in *.
    destruct (f x) as [y|e]; [|discriminate].
    destruct (mapM f l1) as [k|e] eqn:E; [|discriminate].
    injection H1 as <-. rewrite (IH k eq_refl H2). reflexivity.
Qed.

(** C7, as the code has it: for a card whose cashback_categories is absent
    or falsy, the line of the card is its name, its bank in parentheses,
    and the marker "No cashback info" where the category descriptions would
    be; the line stands in the card list, which therefore contains the
    marker. *)
Theorem no_cashback_info_line (card : object) (name bank_name : jsstring) :
  truthy (get_own card (str "cashback_categories")) = false ->
  ToString (get_own card (str "card_name")) = Ok name ->
  ToString (get_own card (str "bank")) = Ok bank_name ->
  format_card (VObject card) =
    Ok (name ++ str " (" ++ bank_name ++ str "): " ++ no_cashback_info) /\
  (forall before after lines_before lines_after,
     mapM format_card before = Ok lines_before ->
     mapM format_card after = Ok lines_after ->
     exists text,
       formatCardList (before ++ VObject card :: after) = Ok text /\
       text = join [10]
                (lines_before
                   ++ (name ++ str " (" ++ bank_name ++ str "): "
                         ++ no_cashback_info) :: lines_after) /\
       includes no_cashback_info text = true).
Proof.
  intros Hcat Hname Hbank.
  assert (format_card (VObject card) =
          Ok (name ++ str " (" ++ bank_name ++ str "): " ++ no_cashback_info))
    as Hline.
  { unfold format_card, mbind, result_bind, get.
    rewrite Hcat. unfold mret at 1, result_ret at 1.
    rewrite Hname, Hbank. reflexivity. }
  split; [exact Hline|].
  intros before after lb la Hb Ha.
  eexists. split; [|split; [reflexivity|]].
  - unfold formatCardList.
    rewrite (mapM_result_app format_card before (VObject card :: after) lb
               ((name ++ str " (" ++ bank_name ++ str "): " ++ no_cashback_info)
                  :: la) Hb).
    + reflexivity.
    + cbn [mapM]. rewrite Hline, Ha. reflexivity.
  - destruct (join_middle [10] lb
                (name ++ str " (" ++ bank_name ++ str "): " ++ no_cashback_info)
                la) as (l & r & ->).
    rewrite !app_assoc, <- (app_assoc _ no_cashback_info r).
    apply includes_app.
Qed.

Lemma no_cashback_info_line_witness :
  format_card (VObject card_without_field) =
  Ok (str "Chase Freedom Unlimited (Chase): No cashback info").
Proof.
  apply (no_cashback_info_line card_without_field
           (str "Chase Freedom Unlimited") (str "Chase"));
    reflexivity.
Defined.

(** C7 as stated fails: this card has no category data, its mapping is
    empty, and its line ends after the colon, without the marker. *)
Lemma empty_mapping_has_no_marker :
  format_card card_without_categories =
    Ok (str "Chase Freedom Unlimited (Chase): ") /\
  formatCardList [card_without_categories] =
    Ok (str "Chase Freedom Unlimited (Chase): ") /\
  includes no_cashback_info (str "Chase Freedom Unlimited (Chase): ") = false.
Proof. split; [reflexivity|]. split; reflexivity. Qed.

(** ** Responses that are not ok *)

Section TransportFacts.

Variable fetch : request -> result response.
Variable JSON_parse : jsstring -> result value.

Lemma read_response_not_ok r con :
  ok r = false ->
  (exists e con', read_response JSON_parse r con = (Throw e, con')) /\
  (forall body upstream c m,
     json r = Ok (VObject body) ->
     get_own body (str "error") = VObject upstream ->
     get_own upstream (str "message") = VString (c :: m) ->
     (read_response JSON_parse r con).1
     = Throw (api_error (status r) (c :: m))) /\
  (forall body,
     json r = Ok (VObject body) ->
     get_own body (str "error") = VUndefined ->
     (read_response JSON_parse r con).1
     = Throw (api_error (status r) (str "Unknown error"))).
Proof.
  intros Hok. unfold read_response. rewrite Hok. cbn [negb].
  unfold mbind, M_bind, lift, console, throw, mret, M_ret.
  split; [|split].
  - destruct (json r) as [d|e]; [|eauto].
    destruct (get d (str "error")) as [upstream|e]; [|eauto].
    set (message := match upstream with
                    | VUndefined | VNull => _
                    | _ => _
                    end).
    destruct (message (print (ConsoleError, str "OpenAI API error:") con))
      as [[mv|e] con1]; [|eauto].
    destruct (ToString _); eauto.
  - intros body upstream c m -> Hup Hm. cbn [get]. rewrite Hup.
    cbn [get]. rewrite Hm. reflexivity.
  - intros body -> Hup. cbn [get]. rewrite Hup. reflexivity.
Qed.




End TransportFacts.



(** ** The rate of an entry *)

Section Scanning.

Variable p : Z -> bool.

Lemma take_while_stops s rest :
  Forall (fun c => p c = true) s -> stops p rest ->
  take_while p (s ++ rest) = s.
Proof.
  intros Hs Hrest. induction Hs as [|c s Hc Hs IH]; simpl.
  - destruct rest as [|d rest]; [reflexivity|]. simpl in *.
    rewrite Hrest. reflexivity.
  - rewrite Hc, IH. reflexivity.
Qed.

Lemma drop_while_stops s rest :
  Forall (fun c => p c = true) s -> stops p rest ->
  drop_while p (s ++ rest) = rest.
Proof.
  intros Hs Hrest. induction Hs as [|c s Hc Hs IH]; simpl.
  - destruct rest as [|d rest]; [reflexivity|]. simpl in *.
    rewrite Hrest. reflexivity.
  - rewrite Hc. exact IH.
Qed.

Lemma drop_while_head s : stops p (drop_while p s).
Proof.
  induction s as [|c s IH]; simpl; [exact I|].
  destruct (p c) eqn:Hc; [exact IH | exact Hc].
Qed.

Lemma drop_while_all s :
  Forall (fun c => p c = true) s -> drop_while p s = [].
Proof.
  induction 1 as [|c s Hc Hs IH]; simpl; [reflexivity|].
  rewrite Hc. exact IH.
Qed.

End Scanning.

Lemma digit_is_digit_or_dot c :
  Char.is_digit c = true -> Char.is_digit_or_dot c = true.
Proof. unfold Char.is_digit_or_dot. intros ->. reflexivity. Qed.

Lemma dot_is_not_digit : Char.is_digit Char.dot = false.
Proof. reflexivity. Qed.

(** The digits at the head of a run of digits and dots are those at the
    head of the string. *)
Lemma take_digits_of_token s :
  take_while Char.is_digit (take_while Char.is_digit_or_dot s)
  = take_while Char.is_digit s.
Proof.
  induction s as [|c s IH]; simpl; [reflexivity|].
  destruct (Char.is_digit c) eqn:Hd.
  - rewrite (digit_is_digit_or_dot c Hd). simpl. rewrite Hd, IH. reflexivity.
  - destruct (Char.is_digit_or_dot c); simpl; [rewrite Hd|]; reflexivity.
Qed.

Lemma drop_digits_of_token s :
  drop_while Char.is_digit (take_while Char.is_digit_or_dot s)
  = take_while Char.is_digit_or_dot (drop_while Char.is_digit s).
Proof.
  induction s as [|c s IH]; simpl; [reflexivity|].
  destruct (Char.is_digit c) eqn:Hd.
  - rewrite (digit_is_digit_or_dot c Hd). simpl. rewrite Hd. exact IH.
  - simpl. destruct (Char.is_digit_or_dot c); simpl; [rewrite Hd|]; reflexivity.
Qed.

(** parseFloat reads from the run what it would read from the string. *)
Lemma parseFloat_token s :
  parseFloat (take_while Char.is_digit_or_dot s) = parseFloat s.
Proof.
  unfold parseFloat. rewrite take_digits_of_token, drop_digits_of_token.
  pose proof (drop_while_head Char.is_digit s) as Hstop.
  destruct (drop_while Char.is_digit s) as [|c r]; [reflexivity|].
  simpl in Hstop. simpl.
  destruct (c =? Char.dot) eqn:Hdot.
  - unfold Char.is_digit_or_dot. rewrite Hdot, orb_true_r, Hdot.
    rewrite take_digits_of_token. reflexivity.
  - unfold Char.is_digit_or_dot. rewrite Hstop, Hdot. reflexivity.
Qed.

Lemma extract_rate_leading c r :
  Char.is_digit_or_dot c = true ->
  extract_rate (c :: r) = Number_of_fixed (toFixed2 (parseFloat (c :: r))).
Proof.
  intros Hc. unfold extract_rate, match_digits_dots. simpl.
  rewrite Hc. simpl.
  replace (c :: take_while Char.is_digit_or_dot r)
    with (take_while Char.is_digit_or_dot (c :: r))
    by (simpl; rewrite Hc; reflexivity).
  rewrite parseFloat_token. reflexivity.
Qed.

Lemma parseFloat_fraction ip fp rest :
  all_digits ip -> all_digits fp -> stops Char.is_digit rest ->
  ip ++ fp <> [] ->
  parseFloat (ip ++ Char.dot :: fp ++ rest) = number_of_decimal ip fp.
Proof.
  intros Hip Hfp Hrest Hne. unfold parseFloat.
  rewrite (take_while_stops Char.is_digit ip (Char.dot :: fp ++ rest) Hip
             dot_is_not_digit).
  rewrite (drop_while_stops Char.is_digit ip (Char.dot :: fp ++ rest) Hip
             dot_is_not_digit).
  rewrite Z.eqb_refl.
  rewrite (take_while_stops Char.is_digit fp rest Hfp Hrest).
  destruct ip; [|reflexivity]. destruct fp; [|reflexivity].
  contradiction.
Qed.

Lemma parseFloat_integer ip rest :
  all_digits ip -> stops Char.is_digit_or_dot rest -> ip <> [] ->
  parseFloat (ip ++ rest) = number_of_decimal ip [].
Proof.
  intros Hip Hrest Hne. unfold parseFloat.
  assert (stops Char.is_digit rest) as Hrest'.
  { destruct rest as [|c rest]; [exact I|]. simpl in *.
    unfold Char.is_digit_or_dot in Hrest.
    apply orb_false_iff in Hrest as [H _]. exact H. }
  rewrite (take_while_stops Char.is_digit ip rest Hip Hrest').
  rewrite (drop_while_stops Char.is_digit ip rest Hip Hrest').
  destruct rest as [|c rest].
  - destruct ip; [contradiction | reflexivity].
  - simpl in Hrest. unfold Char.is_digit_or_dot in Hrest.
    apply orb_false_iff in Hrest as [_ ->].
    destruct ip; [contradiction | reflexivity].
Qed.

(** The callback stores, under the key of the category, the rate read from
    the text of cat.rate and the description made of both texts. *)
Lemma callback_stores_rate entry category rate_text acc st :
  get_own entry (str "category") = VString category -> category <> [] ->
  get_own entry (str "rate") = VString rate_text -> rate_text <> [] ->
  forEach_callback (VObject entry) acc st =
  (Ok (<[substring0 30 (slugify category) :=
           {| rate := extract_rate rate_text;
              description := category ++ str " - " ++ rate_text |}]> acc),
   st).
Proof.
  intros Hc Hcne Hr Hrne.
  unfold forEach_callback, mbind, M_bind, lift, get, mret, M_ret.
  rewrite Hc, Hr.
  destruct category; [contradiction|]. destruct rate_text; [contradiction|].
  reflexivity.
Qed.

(** ** Binary64 facts behind the rate *)

Lemma round_half_even_near num den :
  0 < den -> 2 * Z.abs (den * Binary64.round_half_even num den - num) <= den.
Proof.
  intros Hden. unfold Binary64.round_half_even.
  pose proof (Z.div_mod num den ltac:(lia)) as Hdm.
  pose proof (Z.mod_pos_bound num den Hden) as Hr.
  destruct ((den <? 2 * (num mod den))
            || ((2 * (num mod den) =? den) && Z.odd (num / den))) eqn:E.
  - apply orb_true_iff in E as [E|E]; [|apply andb_true_iff in E as [E _]]; lia.
  - apply orb_false_iff in E as [E _]. lia.
Qed.

Lemma round_half_even_nonneg num den :
  0 <= num -> 0 < den -> 0 <= Binary64.round_half_even num den.
Proof.
  intros Hnum Hden. unfold Binary64.round_half_even.
  pose proof (Z.div_pos num den Hnum Hden).
  destruct (_ || _); lia.
Qed.

Lemma odd_part_spec p e :
  e <= (Binary64.odd_part p e).2 /\
  Zpos p = Zpos (Binary64.odd_part p e).1 * 2 ^ ((Binary64.odd_part p e).2 - e).
Proof.
  revert e. induction p as [p IH|p IH|]; intros e; simpl.
  - rewrite Z.sub_diag. simpl. lia.
  - destruct (IH (e + 1)) as [Hle Heq]. split; [lia|].
    replace ((Binary64.odd_part p (e + 1)).2 - e)
      with (Z.succ ((Binary64.odd_part p (e + 1)).2 - (e + 1))) by lia.
    rewrite Z.pow_succ_r by lia. lia.
  - rewrite Z.sub_diag. simpl. lia.
Qed.

(** normalise keeps the value: the mantissa it was given is the one it
    returns times a power of two. *)
Lemma normalise_spec m e :
  0 <= m ->
  exists m' e', Binary64.normalise m e = Fin m' e' /\ 0 <= m' /\
                (m = 0 -> m' = 0) /\
                (0 < m -> e <= e' /\ m = m' * 2 ^ (e' - e)).
Proof.
  intros Hm. destruct m as [|p|p]; [| |lia].
  - exists 0, 0. repeat split; lia.
  - simpl. pose proof (odd_part_spec p e) as [Hle Heq].
    destruct (Binary64.odd_part p e) as [p' e']. simpl in *.
    exists (Zpos p'), e'. repeat split; try lia. 
Qed.

Lemma normalise_pos m e :
  0 < m ->
  exists m' e', Binary64.normalise m e = Fin m' e' /\ 0 <= m' /\
                e <= e' /\ m = m' * 2 ^ (e' - e).
Proof.
  intros Hm. destruct m as [|p|p]; [lia| |lia].
  simpl. pose proof (odd_part_spec p e) as [Hle Heq].
  destruct (Binary64.odd_part p e) as [p' e']. simpl in *.
  exists (Zpos p'), e'. repeat split; try lia.
Qed.

Lemma pow2_split a b : 0 <= a -> 0 <= b -> 2 ^ (a + b) = 2 ^ a * 2 ^ b.
Proof. intros. apply Z.pow_add_r; assumption. Qed.

Lemma pow2_pos a : 0 <= a -> 0 < 2 ^ a.
Proof. intros. apply Z.pow_pos_nonneg; lia. Qed.

Lemma hundredths_scale m e k :
  0 <= k -> Binary64.hundredths (m * 2 ^ k) e = Binary64.hundredths m (e + k).
Proof.
  intros Hk. unfold Binary64.hundredths.
  destruct (0 <=? e) eqn:He.
  - apply Z.leb_le in He.
    assert ((0 <=? e + k) = true) as -> by (apply Z.leb_le; lia).
    rewrite pow2_split by lia. lia.
  - apply Z.leb_gt in He.
    destruct (0 <=? e + k) eqn:Hek.
    + apply Z.leb_le in Hek.
      assert (2 ^ k = 2 ^ (e + k) * 2 ^ (- e)) as H1.
      { rewrite <- pow2_split by lia. f_equal; lia. }
      assert (2 ^ (1 - e) = 2 * 2 ^ (- e)) as H2.
      { replace (1 - e) with (1 + (- e)) by lia.
        rewrite pow2_split by lia. reflexivity. }
      pose proof (pow2_pos (- e) ltac:(lia)) as Hpos.
      rewrite H1, H2.
      set (A := 2 ^ (e + k)). set (B := 2 ^ (- e)) in *. clearbody A B.
      replace (200 * (m * (A * B)) + B) with ((1 + (100 * m * A) * 2) * B) by ring.
      rewrite Z.div_mul_cancel_r by lia.
      rewrite Z.div_add by lia. change (1 / 2) with 0. ring.
    + apply Z.leb_gt in Hek.
      assert (2 ^ (- e) = 2 ^ (- (e + k)) * 2 ^ k) as H1.
      { rewrite <- pow2_split by lia. f_equal; lia. }
      assert (2 ^ (1 - e) = 2 ^ (1 - (e + k)) * 2 ^ k) as H2.
      { rewrite <- pow2_split by lia. f_equal; lia. }
      pose proof (pow2_pos k Hk) as Hpos.
      pose proof (pow2_pos (1 - (e + k)) ltac:(lia)) as Hpos'.
      rewrite H1, H2.
      set (A := 2 ^ (- (e + k))). set (B := 2 ^ k) in *.
      set (C := 2 ^ (1 - (e + k))) in *. clearbody A B C.
      replace (200 * (m * B) + A * B) with ((200 * m + A) * B) by ring.
      rewrite Z.div_mul_cancel_r by lia. reflexivity.
Qed.

(** floor (log2 (p / q)) is at most the binade it names. *)
Lemma binade_lower p q :
  0 < p -> 0 < q -> 0 <= Binary64.binade p q ->
  q * 2 ^ Binary64.binade p q <= p.
Proof.
  intros Hp Hq. unfold Binary64.binade.
  pose proof (Z.log2_spec p Hp) as [Hp1 Hp2].
  pose proof (Z.log2_spec q Hq) as [Hq1 Hq2].
  pose proof (Z.log2_nonneg p) as Hlp. pose proof (Z.log2_nonneg q) as Hlq.
  set (a := Z.log2 p) in *. set (b := Z.log2 q) in *.
  destruct (0 <=? a - b) eqn:Hl.
  - destruct (q * 2 ^ (a - b) <=? p) eqn:Ht.
    + intros _. apply Z.leb_le in Ht. exact Ht.
    + intros Hnn.
      assert (2 ^ a = 2 ^ (Z.succ b) * 2 ^ (a - b - 1)) as Ha.
      { rewrite <- pow2_split by lia. f_equal; lia. }
      pose proof (pow2_pos (a - b - 1) Hnn).
      nia.
  - destruct (q <=? p * 2 ^ (- (a - b))); intros Hnn;
      apply Z.leb_gt in Hl; lia.
Qed.

Lemma ulp_exponent_small p q :
  0 < p -> 0 < q -> p < q * 2 ^ 46 -> Binary64.ulp_exponent p q <= -7.
Proof.
  intros Hp Hq Hlt. unfold Binary64.ulp_exponent.
  assert (Binary64.binade p q <= 45); [|lia].
  destruct (Z.le_gt_cases (Binary64.binade p q) 45) as [H|H]; [exact H|].
  pose proof (binade_lower p q Hp Hq ltac:(lia)) as Hlow.
  assert (2 ^ 46 <= 2 ^ Binary64.binade p q)
    by (apply Z.pow_le_mono_r; lia).
  nia.
Qed.

(** Below 2^46 the binary64 value nearest to a decimal with at most two
    places is nearer to it than half a hundredth: toFixed(2) gives the
    decimal back. *)
Lemma hundredths_of_nearest P q c :
  0 < P -> 0 < q -> 0 < c -> q * c = 100 -> P < q * 2 ^ 46 ->
  exists m e,
    Binary64.nearest_nonneg P q = Fin m e /\ 0 <= m /\
    Binary64.at_least_1e21 m e = false /\
    Binary64.hundredths m e = P * c.
Proof.
  intros HP Hq Hc Hqc Hlt. unfold Binary64.nearest_nonneg.
  assert ((P =? 0) = false) as -> by (apply Z.eqb_neq; lia).
  pose proof (ulp_exponent_small P q HP Hq Hlt) as He0.
  set (e0 := Binary64.ulp_exponent P q) in *.
  assert ((e0 <? 0) = true) as -> by (apply Z.ltb_lt; lia).
  assert ((971 <? e0) = false) as -> by (apply Z.ltb_ge; lia).
  assert ((e0 =? 971) = false) as -> by (apply Z.eqb_neq; lia).
  cbn [orb andb].
  assert (128 <= 2 ^ (- e0)) as HE.
  { change 128 with (2 ^ 7). apply Z.pow_le_mono_r; lia. }
  assert (2 ^ (1 - e0) = 2 * 2 ^ (- e0)) as HE2.
  { replace (1 - e0) with (1 + (- e0)) by lia.
    rewrite pow2_split by lia. reflexivity. }
  pose proof (round_half_even_near (P * 2 ^ (- e0)) q Hq) as Hnear.
  pose proof (round_half_even_nonneg (P * 2 ^ (- e0)) q ltac:(nia) Hq) as Hnn.
  set (E := 2 ^ (- e0)) in *.
  set (m' := Binary64.round_half_even (P * E) q) in *.
  assert (q <= 100) as Hq100 by nia.
  assert (0 < m') as Hm' by nia.
  destruct (normalise_pos m' e0) as (m & e & Hnorm & Hm & Hle & Hval).
  { exact Hm'. }
  exists m, e. split; [exact Hnorm|]. split; [exact Hm|].
  assert (E = 2 ^ (- e0)) as HEdef by reflexivity.
  clearbody E m'.
  assert (Binary64.hundredths m e = P * c) as Hh.
  { replace e with (e0 + (e - e0)) by lia.
    rewrite <- hundredths_scale by lia. rewrite <- Hval.
    unfold Binary64.hundredths.
    assert ((0 <=? e0) = false) as -> by (apply Z.leb_gt; lia).
    rewrite HE2, <- HEdef. symmetry.
    apply Z.div_unique with (r := 200 * m' + E - 2 * E * (P * c)); nia. }
  split; [|exact Hh].
  unfold Binary64.at_least_1e21.
  assert (2 ^ 46 < 10 ^ 21) as Hbig by reflexivity.
  set (T := 2 ^ 46) in *. set (B := 10 ^ 21) in *. clearbody T B.
  destruct (0 <=? e) eqn:Hesign.
  - apply Z.leb_le in Hesign. apply Z.leb_gt.
    assert (2 ^ (e - e0) = 2 ^ e * E) as Hsplit.
    { rewrite HEdef, <- pow2_split by lia. f_equal; lia. }
    rewrite Hsplit in Hval.
    pose proof (pow2_pos e Hesign).
    set (X := m * 2 ^ e) in *.
    assert (m' = X * E) as HX by (subst X; lia).
    clearbody X. rewrite HX in Hnear.
    destruct (Z.le_gt_cases X T) as [|Hgt]; [lia|]. exfalso.
    assert (1 <= q * X - P) by nia.
    assert (q * (X * E) - P * E = E * (q * X - P)) as Heq by ring.
    assert (E * 1 <= E * (q * X - P))
      by (apply Z.mul_le_mono_nonneg_l; lia).
    lia.
  - apply Z.leb_gt in Hesign. apply Z.leb_gt.
    assert (E = 2 ^ (- e) * 2 ^ (e - e0)) as Hsplit.
    { rewrite HEdef, <- pow2_split by lia. f_equal; lia. }
    pose proof (pow2_pos (- e) ltac:(lia)).
    pose proof (pow2_pos (e - e0) ltac:(lia)).
    set (U := 2 ^ (- e)) in *. set (V := 2 ^ (e - e0)) in *.
    clearbody U V. rewrite Hval, Hsplit in Hnear. rewrite Hsplit in HE.
    destruct (Z.lt_ge_cases m (B * U)) as [Hlt'|Hge]; [exact Hlt'|].
    exfalso.
    assert (1 <= q * B - P) by nia.
    assert (U * 1 <= U * (q * B - P))
      by (apply Z.mul_le_mono_nonneg_l; lia).
    assert (U * (q * B - P) <= q * m - P * U) by nia.
    assert (V * U <= V * (q * m - P * U))
      by (apply Z.mul_le_mono_nonneg_l; lia).
    assert (q * (m * V) - P * (U * V) = V * (q * m - P * U)) as Heq by ring.
    lia.
Qed.

Lemma nearest_nonneg_sign p q :
  0 <= p -> 0 < q ->
  match Binary64.nearest_nonneg p q with
  | Fin m _ => 0 <= m
  | Infinity => True
  | NaN => False
  end.
Proof.
  intros Hp Hq. unfold Binary64.nearest_nonneg.
  destruct (p =? 0); [lia|].
  set (e := Binary64.ulp_exponent p q).
  assert (0 <= (if e <? 0 then Binary64.round_half_even (p * 2 ^ (- e)) q
                else Binary64.round_half_even p (q * 2 ^ e))) as Hm.
  { destruct (e <? 0) eqn:He.
    - apply Z.ltb_lt in He. pose proof (pow2_pos (- e) ltac:(lia)).
      apply round_half_even_nonneg; nia.
    - apply Z.ltb_ge in He. pose proof (pow2_pos e He).
      apply round_half_even_nonneg; nia. }
  destruct (_ || _); [exact I|].
  destruct (if e <? 0 then _ else _) as [|m|m]; simpl; [lia| |lia].
  destruct (Binary64.odd_part m e). lia.
Qed.

Lemma nearest_sign p q :
  0 <= p -> 0 < q ->
  match Binary64.nearest p q with
  | Fin m _ => 0 <= m
  | Infinity => True
  | NaN => False
  end.
Proof.
  intros Hp Hq. unfold Binary64.nearest.
  assert ((p <? 0) = false) as -> by (apply Z.ltb_ge; exact Hp).
  apply nearest_nonneg_sign; assumption.
Qed.

Lemma hundredths_nonneg m e : 0 <= m -> 0 <= Binary64.hundredths m e.
Proof.
  intros Hm. unfold Binary64.hundredths. destruct (0 <=? e) eqn:He.
  - apply Z.leb_le in He. pose proof (pow2_pos e He). nia.
  - apply Z.leb_gt in He.
    pose proof (pow2_pos (- e) ltac:(lia)).
    pose proof (pow2_pos (1 - e) ltac:(lia)).
    apply Z.div_pos; lia.
Qed.

(** toFixed(2) and Number keep a number that is not negative so, and make
    NaN of NaN only. *)
Lemma Number_of_toFixed2_sign x :
  match x with Fin m _ => 0 <= m | _ => True end ->
  match Number_of_fixed (toFixed2 x) with
  | Fin m _ => 0 <= m
  | Infinity => True
  | NaN => x = NaN
  end.
Proof.
  destruct x as [| |m e]; simpl; [reflexivity | exact (fun _ => I) |].
  intros Hm. destruct (Binary64.at_least_1e21 (Z.abs m) e); simpl; [exact Hm|].
  assert ((m <? 0) = false) as -> by (apply Z.ltb_ge; exact Hm).
  simpl. pose proof (hundredths_nonneg m e Hm) as Hh.
  pose proof (nearest_sign (Binary64.hundredths m e) 100 Hh ltac:(lia)) as Hs.
  destruct (Binary64.nearest _ 100); [contradiction | exact I | exact Hs].
Qed.

Lemma digits_value_from acc ds :
  all_digits ds -> 0 <= acc ->
  0 <= fold_left (fun a c => 10 * a + (c - 48)) ds acc.
Proof.
  intros Hds. revert acc.
  induction Hds as [|c ds Hc Hds IH]; intros acc Hacc; simpl; [exact Hacc|].
  apply IH. unfold Char.is_digit in Hc. lia.
Qed.

Lemma digits_value_nonneg ds : all_digits ds -> 0 <= digits_value ds.
Proof. intros H. apply digits_value_from; [exact H | lia]. Qed.

Section MoreScanning.

Variable p : Z -> bool.

Lemma take_while_all s : Forall (fun c => p c = true) (take_while p s).
Proof.
  induction s as [|c s IH]; simpl; [constructor|].
  destruct (p c) eqn:Hc; constructor; assumption.
Qed.

Lemma take_drop_while s : s = take_while p s ++ drop_while p s.
Proof.
  induction s as [|c s IH]; simpl; [reflexivity|].
  destruct (p c); simpl; [f_equal; exact IH | reflexivity].
Qed.

Lemma take_while_nil_stops s : take_while p s = [] -> stops p s.
Proof.
  destruct s as [|c s]; simpl; [intros _; exact I|].
  destruct (p c); [discriminate | reflexivity].
Qed.

End MoreScanning.

Lemma number_of_decimal_sign ip fp :
  all_digits ip -> all_digits fp ->
  match number_of_decimal ip fp with
  | Fin m _ => 0 <= m
  | Infinity => True
  | NaN => False
  end.
Proof.
  intros Hip Hfp. unfold number_of_decimal. apply nearest_sign.
  - apply digits_value_nonneg, Forall_app. split; assumption.
  - apply Z.pow_pos_nonneg; lia.
Qed.

(** parseFloat gives NaN exactly for a string that begins with neither a
    digit nor a dot followed by a digit, and never a negative number. *)
Lemma parseFloat_sign s :
  match parseFloat s with
  | Fin m _ => 0 <= m
  | Infinity => True
  | NaN => stops Char.is_digit s /\
           forall r, s = Char.dot :: r -> stops Char.is_digit r
  end.
Proof.
  unfold parseFloat.
  pose proof (take_while_all Char.is_digit s) as Hip.
  pose proof (take_while_nil_stops Char.is_digit s) as Hnil.
  pose proof (take_drop_while Char.is_digit s) as Hsplit.
  assert (forall d ip fp, all_digits (d :: ip) -> all_digits fp ->
            match number_of_decimal (d :: ip) fp with
            | Fin m _ => 0 <= m | Infinity => True
            | NaN => stops Char.is_digit s /\
                     forall r, s = Char.dot :: r -> stops Char.is_digit r
            end) as Hnum.
  { intros d ip fp Hd Hfp.
    pose proof (number_of_decimal_sign (d :: ip) fp Hd Hfp) as H.
    destruct (number_of_decimal (d :: ip) fp);
      [contradiction | exact I | exact H]. }
  destruct (take_while Char.is_digit s) as [|d ip].
  - simpl in Hsplit.
    destruct (drop_while Char.is_digit s) as [|c r].
    + split; [apply Hnil; reflexivity|]. intros r ->. discriminate.
    + destruct (c =? Char.dot) eqn:Hdot.
      * pose proof (take_while_all Char.is_digit r) as Hfp.
        pose proof (take_while_nil_stops Char.is_digit r) as Hfnil.
        destruct (take_while Char.is_digit r) as [|f fp].
        -- split; [apply Hnil; reflexivity|].
           intros r' Hs. rewrite Hs in Hsplit.
           injection Hsplit as _ ->. apply Hfnil. reflexivity.
        -- pose proof (number_of_decimal_sign [] (f :: fp)
                         ltac:(constructor) Hfp) as H.
           destruct (number_of_decimal [] (f :: fp));
             [contradiction | exact I | exact H].
      * split; [apply Hnil; reflexivity|].
        intros r' Hs. rewrite Hs in Hsplit.
        injection Hsplit as <- _. rewrite Z.eqb_refl in Hdot. discriminate.
  - destruct (drop_while Char.is_digit s) as [|c r].
    + apply Hnum; [exact Hip | constructor].
    + destruct (c =? Char.dot).
      * apply Hnum; [exact Hip | apply take_while_all].
      * apply Hnum; [exact Hip | constructor].
Qed.

(** Through toFixed(2) and back, the number of a decimal with at most two
    places, below 2^46, is the number of that decimal written with two
    places. *)
Lemma toFixed2_two_places P q c :
  0 <= P -> 0 < q -> 0 < c -> q * c = 100 -> P < q * 2 ^ 46 ->
  Number_of_fixed (toFixed2 (Binary64.nearest P q))
  = Binary64.nearest (P * c) 100.
Proof.
  intros HP Hq Hc Hqc Hlt. unfold Binary64.nearest at 1.
  assert ((P <? 0) = false) as -> by (apply Z.ltb_ge; exact HP).
  destruct (Z.eq_dec P 0) as [->|Hne].
  - reflexivity.
  - destruct (hundredths_of_nearest P q c ltac:(lia) Hq Hc Hqc Hlt)
      as (m & e & -> & Hm & Hbig & Hh).
    unfold toFixed2. rewrite (Z.abs_eq m Hm), Hbig.
    assert ((m <? 0) = false) as -> by (apply Z.ltb_ge; exact Hm).
    simpl. rewrite Hh. reflexivity.
Qed.

Lemma rate_of_two_place_numeral ip fp rest :
  all_digits ip -> all_digits fp -> stops Char.is_digit rest ->
  ip ++ fp <> [] -> (length fp <= 2)%nat ->
  digits_value (ip ++ fp) < 10 ^ Z.of_nat (length fp) * 2 ^ 46 ->
  extract_rate (ip ++ Char.dot :: fp ++ rest)
  = Binary64.nearest
      (digits_value (ip ++ fp) * 10 ^ (2 - Z.of_nat (length fp))) 100.
Proof.
  intros Hip Hfp Hrest Hne Hlen Hlt.
  assert (extract_rate (ip ++ Char.dot :: fp ++ rest)
          = Number_of_fixed (toFixed2 (number_of_decimal ip fp))) as ->.
  { rewrite <- (parseFloat_fraction ip fp rest Hip Hfp Hrest Hne).
    destruct Hip as [|c ip Hc Hip]; simpl.
    - apply extract_rate_leading. reflexivity.
    - apply extract_rate_leading, digit_is_digit_or_dot, Hc. }
  unfold number_of_decimal. apply toFixed2_two_places.
  - apply digits_value_nonneg, Forall_app. split; assumption.
  - apply Z.pow_pos_nonneg; lia.
  - apply Z.pow_pos_nonneg; lia.
  - rewrite <- Z.pow_add_r by lia.
    replace (Z.of_nat (length fp) + (2 - Z.of_nat (length fp))) with 2 by lia.
    reflexivity.
  - exact Hlt.
Qed.

Lemma rate_of_integer_numeral ip rest :
  all_digits ip -> stops Char.is_digit_or_dot rest -> ip <> [] ->
  digits_value ip < 2 ^ 46 ->
  extract_rate (ip ++ rest) = Binary64.nearest (digits_value ip * 100) 100.
Proof.
  intros Hip Hrest Hne Hlt.
  assert (extract_rate (ip ++ rest)
          = Number_of_fixed (toFixed2 (number_of_decimal ip []))) as ->.
  { rewrite <- (parseFloat_integer ip rest Hip Hrest Hne).
    destruct Hip as [|c ip Hc Hip]; [contradiction|]. simpl.
    apply extract_rate_leading, digit_is_digit_or_dot, Hc. }
  unfold number_of_decimal. rewrite app_nil_r.
  apply (toFixed2_two_places (digits_value ip) 1 100); try lia.
  apply digits_value_nonneg, Hip.
Qed.

(** The rate read from a text is never negative; it is NaN exactly when the
    first digit or dot of the text is a dot that no digit follows. *)
Lemma extract_rate_sign text :
  match extract_rate text with
  | Fin m _ => 0 <= m
  | Infinity => True
  | NaN => exists before after,
             text = before ++ Char.dot :: after /\
             Forall (fun c => Char.is_digit_or_dot c = false) before /\
             stops Char.is_digit after
  end.
Proof.
  unfold extract_rate, match_digits_dots.
  pose proof (take_drop_while (fun c => negb (Char.is_digit_or_dot c)) text)
    as Hsplit.
  pose proof (take_while_all (fun c => negb (Char.is_digit_or_dot c)) text)
    as Hbefore.
  pose proof (drop_while_head (fun c => negb (Char.is_digit_or_dot c)) text)
    as Hhead.
  destruct (drop_while (fun c => negb (Char.is_digit_or_dot c)) text)
    as [|c r].
  - vm_compute. discriminate.
  - simpl in Hhead. apply negb_false_iff in Hhead.
    replace (c :: take_while Char.is_digit_or_dot r)
      with (take_while Char.is_digit_or_dot (c :: r))
      by (simpl; rewrite Hhead; reflexivity).
    rewrite parseFloat_token.
    pose proof (parseFloat_sign (c :: r)) as Hp.
    pose proof (Number_of_toFixed2_sign (parseFloat (c :: r))) as Hn.
    destruct (parseFloat (c :: r)) as [| |m e] eqn:Epf.
    + simpl. destruct Hp as [Hnd Hdot]. simpl in Hnd.
      unfold Char.is_digit_or_dot in Hhead. rewrite Hnd in Hhead.
      simpl in Hhead. apply Z.eqb_eq in Hhead. subst c.
      exists (take_while (fun c => negb (Char.is_digit_or_dot c)) text), r.
      split; [exact Hsplit|]. split.
      * eapply Forall_impl; [exact Hbefore|]. simpl. intros c Hc.
        apply negb_true_iff in Hc. exact Hc.
      * apply Hdot. reflexivity.
    + exact I.
    + specialize (Hn Hp).
      destruct (Number_of_fixed (toFixed2 (Fin m e))); [discriminate | exact I | exact Hn].
Qed.

(** A text whose first digit or dot is a dot that no digit follows gives
    NaN. *)
Lemma extract_rate_NaN before after :
  Forall (fun c => Char.is_digit_or_dot c = false) before ->
  stops Char.is_digit after ->
  extract_rate (before ++ Char.dot :: after) = NaN.
Proof.
  intros Hbefore Hafter. unfold extract_rate, match_digits_dots.
  rewrite (drop_while_stops (fun c => negb (Char.is_digit_or_dot c))
             before (Char.dot :: after)).
  - replace (Char.dot :: take_while Char.is_digit_or_dot after)
      with (take_while Char.is_digit_or_dot (Char.dot :: after))
      by reflexivity.
    rewrite parseFloat_token. unfold parseFloat. simpl.
    destruct after as [|c after]; [reflexivity|]. simpl in *.
    rewrite Hafter. reflexivity.
  - eapply Forall_impl; [exact Hbefore|]. simpl. intros c ->. reflexivity.
  - reflexivity.
Qed.

(** C3, as the code has it: an entry with a category and a rate text
    stores the rate read from the text.  When the text begins with a
    decimal numeral, digits with an optional fraction or a fraction alone,
    the rate is the binary64 value of the longest such numeral taken
    through toFixed(2) and back to a number, 3.5 for "3.5% cashback"; when
    the numeral has at most two decimals and is below 2^46, that is the
    number of the decimal as written.  When the text has no digit and no
    dot, the rate is 0. *)
Theorem rate_of_leading_numeral (ip fp rest : jsstring) :
  all_digits ip -> all_digits fp -> stops Char.is_digit rest ->
  (forall entry category rate_text acc st,
     get_own entry (str "category") = VString category -> category <> [] ->
     get_own entry (str "rate") = VString rate_text -> rate_text <> [] ->
     exists key description,
       forEach_callback (VObject entry) acc st =
       (Ok (<[key := {| rate := extract_rate rate_text;
                        description := description |}]> acc), st)) /\
  (ip ++ fp <> [] ->
   extract_rate (ip ++ Char.dot :: fp ++ rest)
   = Number_of_fixed (toFixed2 (number_of_decimal ip fp))) /\
  (ip ++ fp <> [] -> (length fp <= 2)%nat ->
   digits_value (ip ++ fp) < 10 ^ Z.of_nat (length fp) * 2 ^ 46 ->
   extract_rate (ip ++ Char.dot :: fp ++ rest)
   = Binary64.nearest
       (digits_value (ip ++ fp) * 10 ^ (2 - Z.of_nat (length fp))) 100) /\
  (ip <> [] -> stops Char.is_digit_or_dot rest ->
   extract_rate (ip ++ rest)
   = Number_of_fixed (toFixed2 (number_of_decimal ip []))) /\
  (ip <> [] -> stops Char.is_digit_or_dot rest -> digits_value ip < 2 ^ 46 ->
   extract_rate (ip ++ rest) = Binary64.nearest (digits_value ip * 100) 100) /\
  extract_rate (str "3.5% cashback") = Fin 7 (-1) /\
  (forall text,
     Forall (fun c => Char.is_digit_or_dot c = false) text ->
     extract_rate text = Fin 0 0).
Proof.
  intros Hip Hfp Hrest.
  split; [|split; [|split; [|split; [|split; [|split]]]]].
  - intros entry category rate_text acc st Hc Hcne Hr Hrne.
    eexists _, _. apply callback_stores_rate; eassumption.
  - intros Hne.
    rewrite <- (parseFloat_fraction ip fp rest Hip Hfp Hrest Hne).
    destruct Hip as [|c ip Hc Hip]; simpl.
    + apply extract_rate_leading. reflexivity.
    + apply extract_rate_leading, digit_is_digit_or_dot, Hc.
  - intros Hne Hlen Hlt. apply rate_of_two_place_numeral; assumption.
  - intros Hne Hstop.
    rewrite <- (parseFloat_integer ip rest Hip Hstop Hne).
    destruct Hip as [|c ip Hc Hip]; [contradiction|]. simpl.
    apply extract_rate_leading, digit_is_digit_or_dot, Hc.
  - intros Hne Hstop Hlt. apply rate_of_integer_numeral; assumption.
  - vm_compute. reflexivity.
  - intros text Htext. unfold extract_rate, match_digits_dots.
    rewrite drop_while_all.
    + vm_compute. reflexivity.
    + eapply Forall_impl; [exact Htext|]. simpl. intros c ->. reflexivity.
Qed.

Lemma rate_of_leading_numeral_witness :
  extract_rate (str "1.5% on groceries") = Binary64.nearest 150 100.
Proof.
  assert (all_digits (str "1")) as H1 by (repeat constructor).
  assert (all_digits (str "5")) as H5 by (repeat constructor).
  assert (stops Char.is_digit (str "% on groceries")) as Hs by reflexivity.
  destruct (rate_of_leading_numeral (str "1") (str "5")
              (str "% on groceries") H1 H5 Hs) as (_ & _ & Hexact & _).
  apply Hexact.
  - discriminate.
  - simpl. lia.
  - reflexivity.
Defined.

(** C3 as stated fails: the rate text "1.005000000000000001%" begins with a
    numeral whose decimal value lies above 1.005 and rounds to 1.01 however
    ties are broken; the binary64 value of the numeral lies below 1.005,
    and the rate extracted is 1. *)
Lemma rate_rounds_the_binary_value :
  extract_rate (str "1.005000000000000001%") = Fin 1 0 /\
  ~ stated_rate (str "1") (str "005000000000000001")
      (extract_rate (str "1.005000000000000001%")).
Proof.
  split; [vm_compute; reflexivity|].
  intros (n & Hn & Hx).
  assert (n = 101) as ->.
  { unfold rounds_to_hundredths in Hn.
    change (digits_value (str "1" ++ str "005000000000000001"))
      with 1005000000000000001 in Hn.
    change (10 ^ Z.of_nat (length (str "005000000000000001")))
      with 1000000000000000000 in Hn.
    lia. }
  vm_compute in Hx. discriminate.
Qed.

(** ** Rates that are not numbers *)

(** C6 at the rate text "N.A.": the run the regular expression matches is
    ".", parseFloat gives NaN for it, and NaN is the rate stored.  No text
    gives a negative rate, and the texts that give NaN are those whose
    first digit or dot is a dot that no digit follows. *)
Theorem dotted_rate_text_stores_NaN :
  match_digits_dots (str "N.A.") = Some (str ".") /\
  parseFloat (str ".") = NaN /\
  (run_convert unavailable_rate_reply).1 =
  Ok {| card_id := str "store-card";
        card_name := VString (str "Store Card");
        bank := VString (str "Acme Bank");
        card_type := str "Credit Card";
        cashback_categories :=
          {[ str "dining" := {| rate := NaN;
                                description := str "Dining - N.A." |} ]} |} /\
  (forall text,
     match extract_rate text with
     | Fin m _ => 0 <= m
     | Infinity => True
     | NaN => exists before after,
                text = before ++ Char.dot :: after /\
                Forall (fun c => Char.is_digit_or_dot c = false) before /\
                stops Char.is_digit after
     end) /\
  (forall before after,
     Forall (fun c => Char.is_digit_or_dot c = false) before ->
     stops Char.is_digit after ->
     extract_rate (before ++ Char.dot :: after) = NaN).
Proof.
  split; [reflexivity|]. split; [reflexivity|].
  split; [vm_compute; reflexivity|].
  split; [exact extract_rate_sign | exact extract_rate_NaN].
Qed.

(** * Further properties of the code *)

(** ToString ends with no other error than a TypeError. *)
Lemma ToString_throws v e : ToString v = Throw e -> e = TypeError.
Proof.
  revert e. induction v as [| |b|n|s|l IH|o IH] using value_induction;
    intros e H; try discriminate.
  - destruct b; discriminate.
  - cbn [ToString] in H.
    match type of H with
    | match ?f l with _ => _ end = _ => set (elements := f) in H
    end.
    assert (forall e', elements l = Throw e' -> e' = TypeError) as Hl.
    { clear H. induction IH as [|x r Hx Hr IHr]; intros e' H';
        [discriminate|].
      cbn [elements] in H'.
      destruct (match x with VUndefined | VNull => Ok [] | _ => ToString x end)
        as [sx|ex] eqn:Ex.
      - destruct (elements r) as [sr|er] eqn:Er; [discriminate|].
        injection H' as <-. apply IHr. reflexivity.
      - injection H' as <-.
        destruct x; try discriminate; apply (Hx _ Ex). }
    destruct (elements l) as [sl|el]; [discriminate|].
    injection H as <-. apply Hl. reflexivity.
  - cbn [ToString] in H. destruct (has_own o (str "toString")); [|discriminate].
    injection H as <-. reflexivity.
Qed.

Lemma forEach_callback_treatment cat acc st :
  forEach_callback cat acc st =
  match treatment_of cat with
  | Throws => (Throw TypeError, st)
  | Skips => (Ok acc, print (Warn, str "Skipping invalid category:") st)
  | Stores c rate_text =>
      (Ok (<[stored_key c := stored_info c rate_text]> acc), st)
  end.
Proof.
  unfold forEach_callback, treatment_of, mbind, M_bind, lift, console,
    mret, M_ret.
  destruct cat as [| |b|n|s|l|o]; try reflexivity.
  cbn [get].
  destruct (truthy (get_own o (str "category"))) eqn:Hc; [|reflexivity].
  cbn [negb].
  destruct (truthy (get_own o (str "rate"))) eqn:Hr; [|reflexivity].
  cbn [negb].
  destruct (get_own o (str "category")) as [| |b|n|s|l|o'];
    try discriminate; cbn [call_toLowerCase]; try reflexivity.
  all: destruct (ToString (get_own o (str "rate"))) as [t|e] eqn:Ht;
    try reflexivity; rewrite (ToString_throws _ _ Ht); reflexivity.
Qed.

Lemma forEach_cons_treatment cat items acc st :
  forEach (cat :: items) acc st =
  match treatment_of cat with
  | Throws => (Throw TypeError, st)
  | Skips => forEach items acc (print (Warn, str "Skipping invalid category:") st)
  | Stores c rate_text =>
      forEach items (<[stored_key c := stored_info c rate_text]> acc) st
  end.
Proof.
  cbn [forEach]. unfold mbind at 1, M_bind at 1.
  rewrite forEach_callback_treatment.
  destruct (treatment_of cat); reflexivity.
Qed.

Lemma forEach_outcome items acc st :
  if forallb accepted_entry items
  then exists acc' st', forEach items acc st = (Ok acc', st')
  else exists st', forEach items acc st = (Throw TypeError, st').
Proof.
  revert acc st. induction items as [|cat items IH]; intros acc st.
  - simpl. eauto.
  - cbn [forallb]. rewrite forEach_cons_treatment. unfold accepted_entry at 1.
    destruct (treatment_of cat); cbn [andb]; [eauto | apply IH | apply IH].
Qed.

Lemma forEach_throws items acc st e st' :
  forEach items acc st = (Throw e, st') -> e = TypeError.
Proof.
  intros H. pose proof (forEach_outcome items acc st) as Ho.
  destruct (forallb accepted_entry items).
  - destruct Ho as (a & s & Ho). rewrite Ho in H. discriminate.
  - destruct Ho as (s & Ho). rewrite Ho in H. congruence.
Qed.

(** What a call returns or throws, read off the three properties of the
    answer it uses. *)
Lemma run_convert_result ai :
  (run_convert ai).1 =
  let name := get_own ai (str "card_name") in
  let issuer := get_own ai (str "issuer") in
  if negb (truthy name) then Throw missing_card_name
  else if negb (truthy issuer) then Throw missing_issuer
  else
    match built_categories (items_of (get_own ai (str "cashback_categories")))
    with
    | Throw e => Throw e
    | Ok categories =>
        match call_toLowerCase name with
        | Throw e => Throw e
        | Ok lowered =>
            Ok {| card_id := hyphenate (strip_special lowered);
                  card_name := name;
                  bank := issuer;
                  card_type := str "Credit Card";
                  cashback_categories := categories |}
        end
    end.
Proof.
  cbv zeta.
  pose proof (validate_required_fields_cases ai) as Hv.
  destruct (truthy (get_own ai (str "card_name"))) eqn:Hn; cbn [negb] in *;
    [|rewrite (run_convert_validation_throws _ _ _ Hv); reflexivity].
  destruct (truthy (get_own ai (str "issuer"))) eqn:Hi; cbn [negb] in *;
    [|rewrite (run_convert_validation_throws _ _ _ Hv); reflexivity].
  assert (exists st1,
            validate_required_fields (entered ai) = (Ok tt, st1) /\
            get_own (aiResponse st1) (str "card_name")
              = get_own ai (str "card_name") /\
            get_own (aiResponse st1) (str "issuer")
              = get_own ai (str "issuer") /\
            (convert_categories st1).1
              = built_categories
                  (items_of (get_own ai (str "cashback_categories"))))
    as (st1 & Hst1 & Hname & Hissuer & Hcats).
  { rewrite Hv. rewrite needs_default_not_array.
    destruct (get_own ai (str "cashback_categories")) as [| |b|n|s|l|o] eqn:Hc;
      cbn [isArray negb];
      eexists; (split; [reflexivity|]);
      (split; [try reflexivity; apply get_own_defaulted; vm_compute; discriminate|]);
      (split; [try reflexivity; apply get_own_defaulted; vm_compute; discriminate|]);
      unfold convert_categories, mbind, M_bind, read, defaulted, entered;
      cbn [aiResponse]; rewrite ?get_own_set_own, ?Hc; try reflexivity.
    apply forEach_result. }
  rewrite (run_convert_after_validation _ _ Hst1).
  pose proof (convert_categories_pure st1) as Hpure.
  destruct (convert_categories st1) as [[cats|e] st2]; cbn [fst snd] in *;
    rewrite <- Hcats; [|reflexivity].
  rewrite generate_card_id_run, Hpure, Hname, Hissuer.
  destruct (call_toLowerCase (get_own ai (str "card_name"))); reflexivity.
Qed.

Lemma forEach_updates items acc st :
  (forEach items acc st).1 =
  match updates_of items with
  | None => Throw TypeError
  | Some us => Ok (assign_all acc us)
  end.
Proof.
  revert acc st. induction items as [|cat items IH]; intros acc st.
  - reflexivity.
  - rewrite forEach_cons_treatment. cbn [updates_of].
    destruct (treatment_of cat) as [| |c t].
    + reflexivity.
    + apply IH.
    + rewrite IH. destruct (updates_of items); reflexivity.
Qed.




Lemma assign_all_lookup acc us k :
  assign_all acc us !! k =
  match last_assigned k us with
  | Some info => Some info
  | None => acc !! k
  end.
Proof.
  unfold last_assigned.
  assert (forall o (m : gmap jsstring category_info),
            m !! k = match o with Some info => Some info | None => acc !! k end ->
            assign_all m us !! k =
            match foldl (fun o kv => if bool_decide (kv.1 = k)
                                     then Some kv.2 else o) o us with
            | Some info => Some info
            | None => acc !! k
            end) as H.
  { induction us as [|[k' v] us IH]; intros o m Hm; [exact Hm|].
    cbn [assign_all foldl]. apply IH. cbn [fst snd].
    rewrite lookup_insert. case_bool_decide; case_decide; congruence. }
  apply (H None). reflexivity.
Qed.

Lemma forEach_invariant (P : jsstring -> category_info -> Prop) items :
  (forall c t, P (stored_key c) (stored_info c t)) ->
  forall acc st acc' st',
    map_Forall P acc ->
    forEach items acc st = (Ok acc', st') ->
    map_Forall P acc'.
Proof.
  intros HP. induction items as [|cat items IH]; intros acc st acc' st' Hacc H.
  - injection H as <- _. exact Hacc.
  - rewrite forEach_cons_treatment in H.
    destruct (treatment_of cat) as [| |c t]; [discriminate | eauto |].
    eapply IH; [|exact H]. apply map_Forall_insert_2; [apply HP | exact Hacc].
Qed.

Lemma built_categories_invariant (P : jsstring -> category_info -> Prop) items cats :
  (forall c t, P (stored_key c) (stored_info c t)) ->
  built_categories items = Ok cats -> map_Forall P cats.
Proof.
  intros HP H. unfold built_categories in H.
  destruct (forEach items ∅ _) as [[a|e] s] eqn:E; [|discriminate].
  injection H as ->.
  eapply forEach_invariant; [exact HP | apply map_Forall_empty | exact E].
Qed.

(** A record the call returns holds the categories the loop built. *)
Lemma run_convert_categories ai r :
  (run_convert ai).1 = Ok r ->
  built_categories (items_of (get_own ai (str "cashback_categories")))
  = Ok (cashback_categories r).
Proof.
  rewrite run_convert_result. cbv zeta.
  destruct (negb _); [discriminate|]. destruct (negb _); [discriminate|].
  destruct (built_categories _); [|discriminate].
  destruct (call_toLowerCase _); [|discriminate].
  intros H. injection H as <-. reflexivity.
Qed.

Lemma call_toLowerCase_throws v e : call_toLowerCase v = Throw e -> e = TypeError.
Proof. destruct v; simpl; congruence. Qed.

Lemma built_categories_throws items e :
  built_categories items = Throw e -> e = TypeError.
Proof.
  unfold built_categories. rewrite forEach_updates.
  destruct (updates_of items); congruence.
Qed.

(** X1: the errors of convertAIResponseToCardData.  The call throws the
    Error Missing card_name exactly when card_name is falsy, the Error
    Missing issuer exactly when card_name is truthy and issuer is falsy, and
    whatever it throws is one of these two or a TypeError. *)
Theorem conversion_errors (ai : object) :
  ((run_convert ai).1 = Throw missing_card_name <->
   truthy (get_own ai (str "card_name")) = false) /\
  ((run_convert ai).1 = Throw missing_issuer <->
   truthy (get_own ai (str "card_name")) = true /\
   truthy (get_own ai (str "issuer")) = false) /\
  (forall e, (run_convert ai).1 = Throw e ->
             e = missing_card_name \/ e = missing_issuer \/ e = TypeError).
Proof.
  rewrite run_convert_result. cbv zeta.
  destruct (truthy (get_own ai (str "card_name"))); cbn [negb].
  - destruct (truthy (get_own ai (str "issuer"))); cbn [negb].
    + assert (forall e,
                match built_categories
                        (items_of (get_own ai (str "cashback_categories"))) with
                | Ok categories =>
                    match call_toLowerCase (get_own ai (str "card_name")) with
                    | Ok lowered =>
                        Ok {| card_id := hyphenate (strip_special lowered);
                              card_name := get_own ai (str "card_name");
                              bank := get_own ai (str "issuer");
                              card_type := str "Credit Card";
                              cashback_categories := categories |}
                    | Throw e => Throw e
                    end
                | Throw e => Throw e
                end = Throw e -> e = TypeError) as Htype.
      { intros e.
        destruct (built_categories _) as [cats|e1] eqn:Eb.
        - destruct (call_toLowerCase _) as [l|e2] eqn:El; [discriminate|].
          intros H. injection H as <-. apply (call_toLowerCase_throws _ _ El).
        - intros H. injection H as <-. apply (built_categories_throws _ _ Eb). }
      split; [|split].
      * split; [|discriminate]. intros H. apply Htype in H. discriminate.
      * split; [|intros [_ H]; discriminate].
        intros H. apply Htype in H. discriminate.
      * intros e H. right. right. apply Htype, H.
    + split; [|split].
      * split; discriminate.
      * split; [intros _; split; reflexivity | reflexivity].
      * intros e H. injection H as <-. right. left. reflexivity.
  - split; [|split].
    + split; reflexivity.
    + split; [discriminate | intros [H _]; discriminate].
    + intros e H. injection H as <-. left. reflexivity.
Qed.

(** X2: the call returns a record exactly when card_name is a
    non-empty string, issuer is truthy and the callback throws on no entry
    of cashback_categories; the record it returns has the slug of the name
    as card_id, the name and the issuer as they are, and the card_type
    Credit Card. *)
Theorem conversion_returns_iff (ai : object) :
  ((exists r, (run_convert ai).1 = Ok r) <-> accepts ai = true) /\
  (forall r, (run_convert ai).1 = Ok r ->
     exists name,
       get_own ai (str "card_name") = VString name /\
       card_id r = slugify name /\
       card_name r = VString name /\
       bank r = get_own ai (str "issuer") /\
       card_type r = str "Credit Card").
Proof.
  unfold accepts. rewrite run_convert_result. cbv zeta.
  unfold built_categories. rewrite forEach_updates.
  assert (forallb accepted_entry
            (items_of (get_own ai (str "cashback_categories")))
          = match updates_of (items_of (get_own ai (str "cashback_categories")))
            with Some _ => true | None => false end) as ->.
  { generalize (items_of (get_own ai (str "cashback_categories"))).
    intros items. induction items as [|cat items IH]; [reflexivity|].
    cbn [forallb updates_of]. unfold accepted_entry at 1.
    destruct (treatment_of cat); cbn [andb]; [reflexivity | exact IH |].
    rewrite IH. destruct (updates_of items); reflexivity. }
  destruct (get_own ai (str "card_name")) as [| |b|n|name|l|o];
    cbn [truthy negb call_toLowerCase].
  1-2: split; [split; [intros [r H]|]; discriminate | discriminate].
  - destruct b; cbn [negb].
    + split; [split; [intros [r H]|]; [|discriminate] | ].
      * repeat match type of H with
               | context [if ?b then _ else _] => destruct b
               | context [match ?o with Some _ => _ | None => _ end] => destruct o
               end; discriminate.
      * intros r H.
        repeat match type of H with
               | context [if ?b then _ else _] => destruct b
               | context [match ?o with Some _ => _ | None => _ end] => destruct o
               end; discriminate.
    + split; [split; [intros [r H]|]; discriminate | discriminate].
  - split; [split; [intros [r H]|]; [|discriminate] | intros r H];
      repeat match type of H with
             | context [if ?b then _ else _] => destruct b
             | context [match ?o with Some _ => _ | None => _ end] => destruct o
             end; discriminate.
  - destruct name as [|c name]; cbn [negb].
    + split; [split; [intros [r H]|]; discriminate | discriminate].
    + destruct (truthy (get_own ai (str "issuer"))); cbn [negb andb].
      * destruct (updates_of _) as [us|].
        -- split; [split; [reflexivity | intros _; eexists; reflexivity]|].
           intros r H. injection H as <-. exists (c :: name).
           repeat split.
        -- split; [split; [intros [r H]|]; discriminate | discriminate].
      * split; [split; [intros [r H]|]; discriminate | discriminate].
  - split; [split; [intros [r H]|]; [|discriminate] | intros r H];
      repeat match type of H with
             | context [if ?b then _ else _] => destruct b
             | context [match ?o with Some _ => _ | None => _ end] => destruct o
             end; discriminate.
  - split; [split; [intros [r H]|]; [|discriminate] | intros r H];
      repeat match type of H with
             | context [if ?b then _ else _] => destruct b
             | context [match ?o with Some _ => _ | None => _ end] => destruct o
             end; discriminate.
Qed.

Lemma unusable_entry_throws cat : unusable_entry cat -> treatment_of cat = Throws.
Proof.
  intros [->|(entry & -> & Hc & Hr & Hs)]; [reflexivity|].
  unfold treatment_of. cbn [get]. rewrite Hc, Hr. cbn [negb].
  destruct (get_own entry (str "category")) as [| |b|n|s|l|o];
    try reflexivity.
  exfalso. apply (Hs s). reflexivity.
Qed.

Lemma updates_of_throws items cat :
  cat ∈ items -> treatment_of cat = Throws -> updates_of items = None.
Proof.
  intros Hin Hcat. induction Hin as [cat items|cat other items Hin IH].
  - cbn [updates_of]. rewrite Hcat. reflexivity.
  - cbn [updates_of]. rewrite (IH Hcat).
    destruct (treatment_of other); reflexivity.
Qed.

(** X3: one entry the callback throws on, a null or an entry whose
    truthy category is not a string, anywhere in the array, makes the whole
    call throw a TypeError: no record is returned for the other entries. *)
Theorem unusable_entry_fails_conversion (ai : object) (items : list value)
    (cat : value) :
  truthy (get_own ai (str "card_name")) = true ->
  truthy (get_own ai (str "issuer")) = true ->
  get_own ai (str "cashback_categories") = VArray items ->
  cat ∈ items -> unusable_entry cat ->
  (run_convert ai).1 = Throw TypeError.
Proof.
  intros Hn Hi Hc Hin Hcat. rewrite run_convert_result. cbv zeta.
  rewrite Hn, Hi, Hc. cbn [negb items_of].
  unfold built_categories. rewrite forEach_updates.
  rewrite (updates_of_throws items cat Hin (unusable_entry_throws cat Hcat)).
  reflexivity.
Qed.

Lemma unusable_entry_fails_conversion_witness :
  (run_convert null_entry_reply).1 = Throw TypeError.
Proof.
  apply (unusable_entry_fails_conversion null_entry_reply
           [VObject (obj [("category", VString (str "Dining"));
                          ("rate", VString (str "3%"))]%string); VNull]
           VNull).
  - reflexivity.
  - reflexivity.
  - reflexivity.
  - apply list_elem_of_In. right. left. reflexivity.
  - left. reflexivity.
Defined.

(** X4: a call whose card_name is truthy but not a string, and whose
    cashback_categories is not an array, throws the TypeError of line 186
    after it has written the empty array into the object of the caller and
    warned on the console. *)
Theorem failed_call_still_writes (ai : object) :
  truthy (get_own ai (str "card_name")) = true ->
  (forall s, get_own ai (str "card_name") <> VString s) ->
  truthy (get_own ai (str "issuer")) = true ->
  isArray (get_own ai (str "cashback_categories")) = false ->
  run_convert ai = (Throw TypeError, defaulted ai).
Proof.
  intros Hn Hs Hi Harr.
  pose proof (validate_required_fields_cases ai) as Hv.
  rewrite Hn, Hi, needs_default_not_array, Harr in Hv. cbn [negb] in Hv.
  rewrite (run_convert_after_validation _ _ Hv).
  unfold convert_categories, mbind, M_bind, read, defaulted.
  cbn [aiResponse]. rewrite get_own_set_own. cbn [forEach].
  unfold mret, M_ret. rewrite generate_card_id_run. cbn [aiResponse].
  rewrite get_own_defaulted by (vm_compute; discriminate).
  destruct (get_own ai (str "card_name")) as [| |b|n|s|l|o];
    try reflexivity.
  exfalso. apply (Hs s). reflexivity.
Qed.

Lemma failed_call_still_writes_witness :
  run_convert numeric_name_reply = (Throw TypeError, defaulted numeric_name_reply).
Proof.
  apply (failed_call_still_writes numeric_name_reply).
  - reflexivity.
  - intros s. discriminate.
  - reflexivity.
  - reflexivity.
Defined.

(** X5: what the call returns or throws depends on card_name, issuer
    and cashback_categories only: two answers that agree on these three
    properties give the same result. *)
Theorem other_properties_ignored (ai ai' : object) :
  get_own ai (str "card_name") = get_own ai' (str "card_name") ->
  get_own ai (str "issuer") = get_own ai' (str "issuer") ->
  get_own ai (str "cashback_categories")
    = get_own ai' (str "cashback_categories") ->
  (run_convert ai).1 = (run_convert ai').1.
Proof.
  intros Hn Hi Hc. rewrite !run_convert_result. cbv zeta.
  rewrite Hn, Hi, Hc. reflexivity.
Qed.

(** X6: every key of the cashback_categories of a returned record
    has at most thirty code units, all of them lower-case letters, digits or
    hyphens. *)
Theorem returned_keys_are_category_keys (ai : object) (r : card_data) :
  (run_convert ai).1 = Ok r ->
  map_Forall (fun k _ => category_key k) (cashback_categories r).
Proof.
  intros H. apply run_convert_categories in H.
  eapply built_categories_invariant; [|exact H].
  intros c t. unfold category_key, stored_key, substring0. split.
  - rewrite length_take. lia.
  - apply Forall_take, slugify_chars.
Qed.

Lemma chase_reply_returns : (run_convert chase_reply).1 = Ok chase_record.
Proof. vm_compute. reflexivity. Qed.

Lemma other_properties_ignored_witness :
  (run_convert chase_reply).1 = (run_convert chase_reply_with_notes).1.
Proof.
  apply (other_properties_ignored chase_reply chase_reply_with_notes);
    reflexivity.
Defined.

Lemma returned_keys_are_category_keys_witness :
  map_Forall (fun k _ => category_key k) (cashback_categories chase_record).
Proof.
  apply (returned_keys_are_category_keys chase_reply chase_record).
  vm_compute. reflexivity.
Defined.

Lemma extract_rate_storable text : storable_rate (extract_rate text).
Proof.
  pose proof (extract_rate_sign text) as Hsign.
  unfold storable_rate.
  destruct (extract_rate text) as [| |m e] eqn:E; [exact I | exact I |].
  split; [exact Hsign|].
  unfold extract_rate in E.
  destruct (parseFloat _) as [| |m0 e0] eqn:Ep; [discriminate | discriminate |].
  pose proof (parseFloat_sign
                (match match_digits_dots text with
                 | Some t => t | None => str "0" end)) as Hp.
  rewrite Ep in Hp.
  unfold toFixed2 in E. rewrite (Z.abs_eq m0 Hp) in E.
  destruct (Binary64.at_least_1e21 m0 e0) eqn:Hbig.
  - injection E as <- <-. left. exact Hbig.
  - assert ((m0 <? 0) = false) as Hneg by (apply Z.ltb_ge; exact Hp).
    rewrite Hneg in E. cbn [Number_of_fixed] in E.
    right. exists (Binary64.hundredths m0 e0).
    split; [apply hundredths_nonneg, Hp | symmetry; exact E].
Qed.

(** X7: every rate of a returned record is NaN, Infinity, or a finite
    number that is not negative and is either at least 10^21 or the double
    nearest to a decimal with two places. *)
Theorem returned_rates_are_storable (ai : object) (r : card_data) :
  (run_convert ai).1 = Ok r ->
  map_Forall (fun _ info => storable_rate (rate info)) (cashback_categories r).
Proof.
  intros H. apply run_convert_categories in H.
  eapply built_categories_invariant; [|exact H].
  intros c t. apply extract_rate_storable.
Qed.

Lemma returned_rates_are_storable_witness :
  map_Forall (fun _ info => storable_rate (rate info))
    (cashback_categories chase_record).
Proof.
  apply (returned_rates_are_storable chase_reply chase_record).
  vm_compute. reflexivity.
Defined.

Lemma assign_all_size acc us :
  (size (assign_all acc us) <= size acc + length us)%nat.
Proof.
  revert acc. induction us as [|[k v] us IH]; intros acc.
  - simpl. lia.
  - cbn [assign_all foldl length]. etransitivity; [apply IH|].
    cbn [fst snd]. rewrite map_size_insert.
    destruct (acc !! k); simpl; lia.
Qed.

Lemma updates_of_length items us :
  updates_of items = Some us -> (length us <= length items)%nat.
Proof.
  revert us. induction items as [|cat items IH]; intros us H.
  - injection H as <-. reflexivity.
  - cbn [updates_of] in H. destruct (treatment_of cat); [discriminate| |].
    + apply IH in H. simpl. lia.
    + destruct (updates_of items) as [vs|]; [|discriminate].
      injection H as <-. specialize (IH vs eq_refl). simpl. lia.
Qed.

(** X8: the categories of a returned record hold, under each key,
    what the last stored entry with that key gave, and nothing under a key
    no entry has; the record has at most as many categories as the array
    has entries. *)
Theorem returned_categories_lookup (ai : object) (r : card_data) :
  (run_convert ai).1 = Ok r ->
  exists us,
    updates_of (items_of (get_own ai (str "cashback_categories"))) = Some us /\
    (forall k, cashback_categories r !! k = last_assigned k us) /\
    (size (cashback_categories r)
     <= length (items_of (get_own ai (str "cashback_categories"))))%nat.
Proof.
  intros H. apply run_convert_categories in H.
  unfold built_categories in H. rewrite forEach_updates in H.
  destruct (updates_of _) as [us|] eqn:Eus; [|discriminate].
  injection H as <-. exists us. split; [reflexivity|]. split.
  - intros k. rewrite assign_all_lookup, lookup_empty.
    destruct (last_assigned k us); reflexivity.
  - etransitivity; [apply assign_all_size|].
    rewrite map_size_empty. apply (updates_of_length _ _ Eus).
Qed.

Lemma returned_categories_lookup_witness :
  exists us,
    updates_of (items_of (get_own chase_reply (str "cashback_categories")))
    = Some us /\
    (forall k, cashback_categories chase_record !! k = last_assigned k us) /\
    (size (cashback_categories chase_record)
     <= length (items_of (get_own chase_reply (str "cashback_categories"))))%nat.
Proof.
  apply (returned_categories_lookup chase_reply chase_record).
  vm_compute. reflexivity.
Defined.



Lemma get_throws v k e : get v k = Throw e -> e = TypeError.
Proof. destruct v; simpl; congruence. Qed.

Lemma mapM_result_cons {A B} (f : A -> result B) y l :
  mapM f (y :: l) =
  match f y with
  | Ok b => match mapM f l with Ok k => Ok (b :: k) | Throw e => Throw e end
  | Throw e => Throw e
  end.
Proof. reflexivity. Qed.

Lemma mapM_throws {A B} (f : A -> result B) l e :
  (forall y e', f y = Throw e' -> e' = TypeError) ->
  mapM f l = Throw e -> e = TypeError.
Proof.
  intros Hf. revert e. induction l as [|y l IH]; intros e H; [discriminate|].
  rewrite mapM_result_cons in H.
  destruct (f y) as [b|e1] eqn:Ey.
  - destruct (mapM f l) as [k|e2]; [discriminate|].
    injection H as <-. apply IH. reflexivity.
  - injection H as <-. apply (Hf _ _ Ey).
Qed.

Lemma mapM_throws_at {A B} (f : A -> result B) l x :
  (forall y e', f y = Throw e' -> e' = TypeError) ->
  x ∈ l -> (exists e, f x = Throw e) -> mapM f l = Throw TypeError.
Proof.
  intros Hf Hin (e & He). induction Hin as [x l|x y l Hin IH].
  - rewrite mapM_result_cons, He, (Hf _ _ He). reflexivity.
  - rewrite mapM_result_cons.
    destruct (f y) as [b|e1] eqn:Ey.
    + rewrite (IH He). reflexivity.
    + rewrite (Hf _ _ Ey). reflexivity.
Qed.

Lemma format_card_throws card e : format_card card = Throw e -> e = TypeError.
Proof.
  unfold format_card. unfold mbind at 1, result_bind at 1.
  destruct (get card (str "cashback_categories")) as [field|e0] eqn:Eg;
    [|intros H; injection H as <-; apply (get_throws _ _ _ Eg)].
  unfold mbind at 1, result_bind at 1.
  match goal with
  | |- match ?c with _ => _ end = _ -> _ => destruct c as [cats|e1] eqn:Ec
  end.
  - unfold mbind, result_bind.
    destruct (get card (str "card_name")) as [n|e2] eqn:En;
      [|intros H; injection H as <-; apply (get_throws _ _ _ En)].
    destruct (ToString n) as [nt|e3] eqn:Ent;
      [|intros H; injection H as <-; apply (ToString_throws _ _ Ent)].
    destruct (get card (str "bank")) as [b|e4] eqn:Eb;
      [|intros H; injection H as <-; apply (get_throws _ _ _ Eb)].
    destruct (ToString b) as [bt|e5] eqn:Ebt;
      [discriminate | intros H; injection H as <-;
                      apply (ToString_throws _ _ Ebt)].
  - intros H. injection H as <-.
    destruct (truthy field); [|discriminate].
    unfold mbind at 1, result_bind at 1 in Ec.
    destruct (mapM _ (entries field)) as [d|e6] eqn:Em; [discriminate|].
    injection Ec as <-.
    refine (mapM_throws _ _ _ _ Em).
    intros kv e'. cbv beta. unfold mbind, result_bind.
    destruct (get kv.2 (str "description")) as [d|e7] eqn:Ed;
      [|intros H; injection H as <-; apply (get_throws _ _ _ Ed)].
    apply ToString_throws.
Qed.

Section ListFacts.

Variable fetch : request -> result response.
Variable JSON_parse : jsstring -> result value.

Lemma formatCardList_throws_at cardList card :
  card ∈ cardList -> (exists e, format_card card = Throw e) ->
  formatCardList cardList = Throw TypeError.
Proof.
  intros Hin He. unfold formatCardList.
  rewrite (mapM_throws_at format_card cardList card format_card_throws Hin He).
  reflexivity.
Qed.

(** X20: when one card of the list cannot be formatted, the two
    recommendation calls throw a TypeError whatever fetch and JSON.parse
    would do, having logged their two lines and the line of the catch
    block. *)
Theorem unformattable_list_sends_nothing (cardList : list value) (card : value) :
  card ∈ cardList -> (exists e, format_card card = Throw e) ->
  (forall purchase con,
     recommendBestCard fetch JSON_parse cardList purchase con
     = (Throw TypeError,
        con ++ recommend_lines "Recommending card for:"
            ++ [(ConsoleError, str "Error recommending card:")])) /\
  (forall base64Image con,
     recommendCardFromImage fetch JSON_parse base64Image cardList con
     = (Throw TypeError,
        con ++ recommend_lines "Analyzing purchase image..."
            ++ [(ConsoleError, str "Error analyzing image:")])).
Proof.
  intros Hin He.
  pose proof (formatCardList_throws_at cardList card Hin He) as Hfmt.
  split.
  - intros purchase con.
    unfold recommendBestCard, try_catch, mbind, M_bind, lift, console,
      print, list_console.
    rewrite Hfmt.
    unfold recommend_lines, rethrow, mbind, M_bind, console, throw, print,
      list_console.
    rewrite <- !app_assoc. reflexivity.
  - intros image con.
    unfold recommendCardFromImage, try_catch, mbind, M_bind, lift, console,
      print, list_console.
    rewrite Hfmt.
    unfold recommend_lines, rethrow, mbind, M_bind, console, throw, print,
      list_console.
    rewrite <- !app_assoc. reflexivity.
Qed.

End ListFacts.

Lemma unformattable_list_sends_nothing_witness :
  recommendBestCard (fun _ => Ok unauthorized) (fun _ => Throw SyntaxError)
    [VObject card_without_field; card_with_null_category; VNull]
    (str "dinner") []
  = (Throw TypeError,
     [] ++ recommend_lines "Recommending card for:"
        ++ [(ConsoleError, str "Error recommending card:")]).
Proof.
  destruct (unformattable_list_sends_nothing
              (fun _ => Ok unauthorized) (fun _ => Throw SyntaxError)
              [VObject card_without_field; card_with_null_category; VNull]
              card_with_null_category) as [H _].
  - apply list_elem_of_In. right. left. reflexivity.
  - exists TypeError. reflexivity.
  - apply H.
Defined.

Lemma describe_categories props :
  Forall described_category props ->
  mapM (fun kv : jsstring * value =>
          d ← get kv.2 (str "description");
          ToString (if truthy d then d else VString kv.1)) props
  = Ok (category_label <$> props).
Proof.
  induction 1 as [|kv props (info & Hkv & Hd) Hprops IH]; [reflexivity|].
  rewrite mapM_result_cons, IH.
  assert ((d ← get kv.2 (str "description");
           ToString (if truthy d then d else VString kv.1))
          = Ok (category_label kv)) as ->.
  { unfold category_label, mbind, result_bind. rewrite Hkv. cbn [get].
    destruct Hd as [[d Hd] | Hd]; rewrite Hd; [destruct d|]; reflexivity. }
  reflexivity.
Qed.

(** X21: the line of a card with categories is its name, its bank
    in parentheses, a colon, and the descriptions of its categories joined
    by a comma and a space, with the key in the place of a description that
    is missing or empty. *)
Theorem described_categories_line (card : object)
    (props : list (jsstring * value)) (name bank_name : jsstring) :
  get_own card (str "cashback_categories") = VObject props ->
  Forall described_category props ->
  ToString (get_own card (str "card_name")) = Ok name ->
  ToString (get_own card (str "bank")) = Ok bank_name ->
  format_card (VObject card) =
  Ok (name ++ str " (" ++ bank_name ++ str "): "
        ++ join (str ", ") (category_label <$> props)).
Proof.
  intros Hc Hprops Hname Hbank.
  unfold format_card. unfold mbind at 1, result_bind at 1. cbn [get].
  rewrite Hc. cbn [truthy entries].
  rewrite (describe_categories props Hprops).
  unfold mbind, result_bind, mret, result_ret. cbn [get].
  rewrite Hname, Hbank. reflexivity.
Qed.

Lemma described_categories_line_witness :
  format_card (VObject card_with_two_categories) =
  Ok (str "Chase Freedom Unlimited (Chase): Dining - 3%, gas").
Proof.
  apply (described_categories_line card_with_two_categories
           (obj [("dining",
                  VObject (obj [("rate", VNumber (str "3"));
                                ("description", VString (str "Dining - 3%"))]));
                 ("gas", VObject (obj [("rate", VNumber (str "2"))]))]%string)
           (str "Chase Freedom Unlimited") (str "Chase")).
  - reflexivity.
  - repeat constructor.
    + eexists. split; [reflexivity|]. left. eexists. reflexivity.
    + eexists. split; [reflexivity|]. right. reflexivity.
  - reflexivity.
  - reflexivity.
Defined.

Lemma kept_not_hyphen c :
  Char.is_kept c = true -> Char.is_space c = false -> (c =? Char.hyphen) = false.
Proof.
  unfold Char.is_kept, Char.is_lower, Char.is_digit, Char.hyphen.
  intros H1 H2. rewrite H2, orb_false_r in H1. lia.
Qed.

Lemma hyphenate_from_hyphens b s :
  Forall (fun c => Char.is_kept c = true) s ->
  has_double_hyphen (hyphenate_from b s) = false /\
  (b = true -> head (hyphenate_from b s) <> Some Char.hyphen).
Proof.
  intros H. revert b. induction H as [|c s Hc Hs IH]; intros b.
  - split; [reflexivity | discriminate].
  - cbn [hyphenate_from]. destruct (Char.is_space c) eqn:Hsp.
    + destruct b.
      * apply IH.
      * destruct (IH true) as [Hd Hh]. split; [|discriminate].
        cbn [has_double_hyphen]. rewrite Hd, orb_false_r.
        specialize (Hh eq_refl).
        destruct (hyphenate_from true s) as [|d t]; [reflexivity|].
        cbn [head] in Hh.
        destruct (d =? Char.hyphen) eqn:E; [|apply andb_false_r].
        apply Z.eqb_eq in E. congruence.
    + pose proof (kept_not_hyphen c Hc Hsp) as Hnot.
      destruct (IH false) as [Hd _]. split.
      * cbn [has_double_hyphen]. rewrite Hd, orb_false_r, Hnot.
        destruct (hyphenate_from false s); reflexivity.
      * intros _. cbn [head]. intros E. injection E as ->.
        discriminate.
Qed.

Lemma has_double_hyphen_take n s :
  has_double_hyphen s = false -> has_double_hyphen (take n s) = false.
Proof.
  revert n. induction s as [|a s IH]; intros n H; [destruct n; reflexivity|].
  destruct n as [|n]; [reflexivity|]. cbn [take].
  cbn [has_double_hyphen] in *. apply orb_false_iff in H as [H1 H2].
  rewrite (IH n H2), orb_false_r.
  destruct s as [|b s]; [destruct n; reflexivity|].
  destruct n as [|n]; [reflexivity|]. exact H1.
Qed.

(** X11: a card_id has no two hyphens in a row, and neither has a
    category key. *)
Theorem slug_has_no_double_hyphen (s : jsstring) :
  has_double_hyphen (slugify s) = false /\
  has_double_hyphen (substring0 30 (slugify s)) = false.
Proof.
  assert (has_double_hyphen (slugify s) = false) as H
    by apply hyphenate_from_hyphens, strip_special_kept.
  split; [exact H | apply has_double_hyphen_take, H].
Qed.

Lemma toLowerCase_deleted p :
  forallb is_deleted p = true -> strip_special (toLowerCase p) = [].
Proof.
  induction p as [|c p IH]; [reflexivity|]. cbn [forallb].
  intros H. apply andb_prop in H as [Hc Hp].
  rewrite toLowerCase_cons, strip_special_app, (IH Hp), app_nil_r.
  unfold is_deleted in Hc. unfold strip_special.
  induction (Char.lower c) as [|d l IHl]; [reflexivity|].
  cbn [forallb] in Hc. apply andb_prop in Hc as [Hd Hl].
  cbn [List.filter]. apply negb_true_iff in Hd. rewrite Hd. apply IHl, Hl.
Qed.

Lemma space_lower c : Char.is_space c = true -> Char.lower c = [c].
Proof.
  unfold Char.is_space, Char.lower, Char.is_upper. intros H.
  repeat match goal with
         | |- context [if ?b then _ else _] => destruct b eqn:?
         end; try reflexivity; lia.
Qed.

Lemma space_kept c : Char.is_space c = true -> Char.is_kept c = true.
Proof. unfold Char.is_kept. intros ->. apply orb_true_r. Qed.

Lemma strip_lower_spaces ws :
  Forall (fun c => Char.is_space c = true) ws ->
  strip_special (toLowerCase ws) = ws.
Proof.
  induction 1 as [|c ws Hc Hws IH]; [reflexivity|].
  rewrite toLowerCase_cons, (space_lower c Hc), strip_special_app, IH.
  unfold strip_special. cbn [List.filter]. rewrite (space_kept c Hc).
  reflexivity.
Qed.

Lemma hyphenate_from_spaces ws y :
  Forall (fun c => Char.is_space c = true) ws ->
  hyphenate_from true (ws ++ y) = hyphenate_from true y.
Proof.
  induction 1 as [|c ws Hc Hws IH]; [reflexivity|].
  cbn [app hyphenate_from]. rewrite Hc. exact IH.
Qed.

Lemma hyphenate_from_run b x ws y :
  Forall (fun c => Char.is_space c = true) ws -> ws <> [] ->
  hyphenate_from b (x ++ ws ++ y) = hyphenate_from b (x ++ [32] ++ y).
Proof.
  intros Hws Hne. revert b. induction x as [|c x IH]; intros b.
  - destruct Hws as [|w ws Hw Hws]; [contradiction|].
    cbn [app hyphenate_from]. rewrite Hw.
    change (Char.is_space 32) with true. cbv iota.
    rewrite (hyphenate_from_spaces ws y Hws). reflexivity.
  - cbn [app hyphenate_from].
    destruct (Char.is_space c); [destruct b|]; rewrite IH; reflexivity.
Qed.


(** X12: code units outside a-z, 0-9 and white space, once in
    lower case, leave no trace: a name with such code units inserted
    anywhere gets the same card_id, and a category the same key. *)
Theorem slug_ignores_deleted_characters (s1 p s2 : jsstring) :
  forallb is_deleted p = true ->
  slugify (s1 ++ p ++ s2) = slugify (s1 ++ s2) /\
  stored_key (s1 ++ p ++ s2) = stored_key (s1 ++ s2).
Proof.
  intros Hp.
  assert (slugify (s1 ++ p ++ s2) = slugify (s1 ++ s2)) as H.
  { unfold slugify.
    rewrite !toLowerCase_app, !strip_special_app, (toLowerCase_deleted p Hp).
    reflexivity. }
  split; [exact H | unfold stored_key; rewrite H; reflexivity].
Qed.

Lemma slug_ignores_deleted_characters_witness :
  slugify (str "Chase" ++ str "-" ++ str "Freedom")
  = slugify (str "Chase" ++ str "Freedom") /\
  stored_key (str "Chase" ++ str "-" ++ str "Freedom")
  = stored_key (str "Chase" ++ str "Freedom").
Proof.
  apply (slug_ignores_deleted_characters (str "Chase") (str "-")
           (str "Freedom")).
  reflexivity.
Defined.

(** X13: a run of white space, of whatever length and kind, gives
    the card_id that one space in its place gives. *)
Theorem slug_collapses_white_space (s1 ws s2 : jsstring) :
  Forall (fun c => Char.is_space c = true) ws -> ws <> [] ->
  slugify (s1 ++ ws ++ s2) = slugify (s1 ++ str " " ++ s2).
Proof.
  intros Hws Hne. unfold slugify, hyphenate.
  rewrite !toLowerCase_app, !strip_special_app.
  rewrite (strip_lower_spaces ws Hws).
  change (strip_special (toLowerCase (str " "))) with [32].
  apply hyphenate_from_run; assumption.
Qed.

Lemma slug_collapses_white_space_witness :
  slugify (str "Chase" ++ [9; 32; 10] ++ str "Freedom")
  = slugify (str "Chase" ++ str " " ++ str "Freedom").
Proof.
  apply (slug_collapses_white_space (str "Chase") [9; 32; 10] (str "Freedom")).
  - repeat constructor.
  - discriminate.
Defined.

(** X14: a card name none of whose code units is kept is accepted
    as it is, and the record returned for it has the empty string as
    card_id. *)
Theorem unsluggable_name_gets_empty_id (ai : object) (name : jsstring)
    (r : card_data) :
  get_own ai (str "card_name") = VString name ->
  forallb is_deleted name = true ->
  (run_convert ai).1 = Ok r ->
  card_id r = [] /\ card_name r = VString name.
Proof.
  intros Hname Hdel. rewrite run_convert_result. cbv zeta. rewrite Hname.
  cbn [call_toLowerCase].
  destruct (negb _); [discriminate|]. destruct (negb _); [discriminate|].
  destruct (built_categories _); [|discriminate].
  intros H. injection H as <-. cbn [card_id card_name].
  rewrite (toLowerCase_deleted name Hdel). split; reflexivity.
Qed.

Lemma unsluggable_name_gets_empty_id_witness :
  exists r, (run_convert unsluggable_reply).1 = Ok r /\
            card_id r = [] /\
            card_name r = VString [25307; 21830; 38134; 34892].
Proof.
  eexists. split; [vm_compute; reflexivity|].
  apply (unsluggable_name_gets_empty_id unsluggable_reply
           [25307; 21830; 38134; 34892]); reflexivity.
Defined.

Lemma forEach_lines items acc st :
  lines (forEach items acc st).2
  = lines st ++ replicate (skipped items) skip_warning.
Proof.
  revert acc st. induction items as [|cat items IH]; intros acc st.
  - cbn. rewrite app_nil_r. reflexivity.
  - rewrite forEach_cons_treatment. cbn [skipped].
    destruct (treatment_of cat) as [| |c t].
    + cbn. rewrite app_nil_r. reflexivity.
    + rewrite IH. cbn [replicate]. unfold print, store_console.
      cbn [lines]. rewrite <- app_assoc. reflexivity.
    + apply IH.
Qed.

(** X15: the console of a call.  Every call logs Converting AI
    response first; a call that passes the two checks then warns once when
    it replaces cashback_categories, warns once for each entry skipped
    before the loop ends, and logs Converted card data last exactly when it
    returns. *)
Theorem console_of_call (ai : object) :
  lines (run_convert ai).2
  = (Log, str "Converting AI response:")
    :: if truthy (get_own ai (str "card_name"))
          && truthy (get_own ai (str "issuer"))
       then
         (if needs_default (get_own ai (str "cashback_categories"))
          then [(Warn, str "Missing or invalid cashback_categories, using empty object")]
          else [])
         ++ replicate
              (skipped (items_of (get_own ai (str "cashback_categories"))))
              skip_warning
         ++ (if accepts ai then [(Log, str "Converted card data:")] else [])
       else [].
Proof.
  pose proof (validate_required_fields_cases ai) as Hv.
  destruct (truthy (get_own ai (str "card_name"))) eqn:Hn; cbn [negb andb] in *;
    [|rewrite (run_convert_validation_throws _ _ _ Hv); reflexivity].
  destruct (truthy (get_own ai (str "issuer"))) eqn:Hi; cbn [negb] in *;
    [|rewrite (run_convert_validation_throws _ _ _ Hv); reflexivity].
  set (items := items_of (get_own ai (str "cashback_categories"))) in *.
  assert (exists st1,
            validate_required_fields (entered ai) = (Ok tt, st1) /\
            get_own (aiResponse st1) (str "card_name")
              = get_own ai (str "card_name") /\
            convert_categories st1 = forEach items ∅ st1 /\
            lines st1
            = (Log, str "Converting AI response:")
              :: (if needs_default (get_own ai (str "cashback_categories"))
                  then [(Warn, str "Missing or invalid cashback_categories, using empty object")]
                  else []))
    as (st1 & Hst1 & Hname & Hcats & Hlines).
  { rewrite Hv. subst items. rewrite needs_default_not_array.
    destruct (get_own ai (str "cashback_categories")) as [| |b|n|s|l|o] eqn:Hc;
      cbn [isArray negb items_of];
      eexists; (split; [reflexivity|]);
      (split; [try reflexivity; apply get_own_defaulted; vm_compute; discriminate|]);
      (split; [|reflexivity]);
      unfold convert_categories, mbind, M_bind, read, defaulted, entered;
      cbn [aiResponse]; rewrite ?get_own_set_own, ?Hc; reflexivity. }
  rewrite (run_convert_after_validation _ _ Hst1), Hcats.
  pose proof (forEach_lines items ∅ st1) as Hl.
  pose proof (forEach_frame items ∅ st1) as Hf.
  pose proof (forEach_outcome items ∅ st1) as Ho.
  unfold accepts. fold items. rewrite Hi. cbn [andb].
  destruct (forEach items ∅ st1) as [[cats|e] st2]; cbn [fst snd] in *.
  - destruct (forallb accepted_entry items);
      [|destruct Ho as (s & Ho); discriminate].
    rewrite generate_card_id_run, Hf, Hname.
    destruct (get_own ai (str "card_name")) as [| |b|n|name|l|o];
      try discriminate; cbn [call_toLowerCase snd];
      try (rewrite Hl, Hlines, app_nil_r; reflexivity).
    destruct name as [|c name]; [discriminate|].
    unfold print, store_console. cbn [lines].
    rewrite Hl, Hlines, <- app_assoc. reflexivity.
  - destruct (forallb accepted_entry items);
      [destruct Ho as (a & s & Ho); discriminate|].
    rewrite Hl, Hlines.
    destruct (get_own ai (str "card_name")) as [| |b|n|name|l|o];
      rewrite ?app_nil_r; try reflexivity.
    destruct name; rewrite app_nil_r; reflexivity.
Qed.

(** X10: the rate is read from the first run of digits and dots of
    the rate text alone: the text before the run and the text after it,
    further numbers included, make no difference. *)
Theorem rate_reads_first_run (before run after : jsstring) :
  Forall (fun c => Char.is_digit_or_dot c = false) before ->
  Forall (fun c => Char.is_digit_or_dot c = true) run -> run <> [] ->
  stops Char.is_digit_or_dot after ->
  match_digits_dots (before ++ run ++ after) = Some run /\
  extract_rate (before ++ run ++ after) = extract_rate run.
Proof.
  intros Hbefore Hrun Hne Hafter.
  assert (match_digits_dots (before ++ run ++ after) = Some run) as Hm.
  { unfold match_digits_dots.
    rewrite (drop_while_stops (fun c => negb (Char.is_digit_or_dot c))
               before (run ++ after)).
    - destruct Hrun as [|c r Hc Hr]; [contradiction|].
      cbn [app]. rewrite (take_while_stops _ r after Hr Hafter). reflexivity.
    - eapply Forall_impl; [exact Hbefore|]. simpl. intros c ->. reflexivity.
    - destruct Hrun as [|c r Hc Hr]; [contradiction|].
      simpl. rewrite Hc. reflexivity. }
  split; [exact Hm|].
  assert (match_digits_dots run = Some run) as Hm'.
  { unfold match_digits_dots.
    destruct Hrun as [|c r Hc Hr]; [contradiction|].
    simpl. rewrite Hc. simpl.
    rewrite <- (app_nil_r r) at 1.
    rewrite (take_while_stops _ r [] Hr I). reflexivity. }
  unfold extract_rate. rewrite Hm, Hm'. reflexivity.
Qed.

Lemma rate_reads_first_run_witness :
  match_digits_dots (str "up to 5% back, 1% elsewhere") = Some (str "5") /\
  extract_rate (str "up to 5% back, 1% elsewhere") = extract_rate (str "5").
Proof.
  apply (rate_reads_first_run (str "up to ") (str "5")
           (str "% back, 1% elsewhere")).
  - repeat constructor.
  - repeat constructor.
  - discriminate.
  - reflexivity.
Defined.

Section CallFacts.

Variable fetch : request -> result response.
Variable JSON_parse : jsstring -> result value.

(** On an ok response the body is read without a line on the console. *)
Lemma read_response_ok r con :
  ok r = true ->
  read_response JSON_parse r con =
  ((data ← json r;
    choices ← get data (str "choices");
    choice ← get_first choices;
    message ← get choice (str "message");
    content ← get message (str "content");
    text ← ToString content;
    JSON_parse text), con).
Proof.
  intros Hok. unfold read_response. rewrite Hok. cbn [negb].
  unfold mbind, M_bind, result_bind, lift.
  destruct (json r) as [data|]; [|reflexivity].
  destruct (get data (str "choices")) as [choices|]; [|reflexivity].
  destruct (get_first choices) as [choice|]; [|reflexivity].
  destruct (get choice (str "message")) as [message|]; [|reflexivity].
  destruct (get message (str "content")) as [content|]; [|reflexivity].
  destruct (ToString content); reflexivity.
Qed.

(** What the console gains while a response is read: nothing, or the line
    of line 45 before an error. *)
Lemma read_response_console r con :
  (read_response JSON_parse r con).2 = con \/
  ((read_response JSON_parse r con).2
   = con ++ [(ConsoleError, str "OpenAI API error:")] /\
   exists e, (read_response JSON_parse r con).1 = Throw e).
Proof.
  destruct (ok r) eqn:Hok.
  - left. rewrite (read_response_ok r con Hok). reflexivity.
  - destruct (read_response_not_ok JSON_parse r con Hok)
      as ((e & con' & He) & _).
    revert He. unfold read_response. rewrite Hok. cbn [negb].
    unfold mbind, M_bind, lift, console, throw, mret, M_ret, print,
      list_console.
    destruct (json r) as [d|e0]; [|intros _; left; reflexivity].
    intros _. right.
    destruct (get d (str "error")) as [upstream|e1];
      [|split; [reflexivity | eauto]].
    destruct upstream as [| |b|n|s|l|o]; simpl;
      try (split; [reflexivity | eauto]);
      destruct (ToString _); split; eauto.
Qed.

Lemma try_catch_logged (body : M (list console_line) value) label con :
  (exists added,
     (body con).2 = con ++ added /\
     match (body con).1 with
     | Ok _ => Forall (fun line : console_line => line.1 = Log) added
     | Throw _ => True
     end) ->
  logged label con (try_catch body (rethrow label) con).
Proof.
  intros (added & Hcon & Hok). unfold logged, try_catch, rethrow.
  destruct (body con) as [[v|e] con'] eqn:E; cbn [fst snd] in *.
  - exists added. split; assumption.
  - unfold mbind, M_bind, console, throw, print, list_console. cbn [fst snd].
    exists (added ++ [(ConsoleError, str label)]). split.
    + rewrite Hcon, app_assoc. reflexivity.
    + apply last_snoc.
Qed.

Lemma read_response_added r con :
  exists added,
    (read_response JSON_parse r con).2 = con ++ added /\
    match (read_response JSON_parse r con).1 with
    | Ok _ => added = []
    | Throw _ => True
    end.
Proof.
  destruct (read_response_console r con) as [H|(H & e & He)].
  - exists []. rewrite app_nil_r. split; [exact H|].
    destruct (read_response JSON_parse r con).1; [reflexivity | exact I].
  - eexists. split; [exact H|]. rewrite He. exact I.
Qed.

(** X16: each of the four calls of the model service only adds
    lines to the console; when it throws, the last line is the console.error
    of its own catch block, and when it returns, it has only logged. *)
Theorem failures_are_logged :
  (forall cardName con,
     logged "Error calling OpenAI API:" con
       (searchCardWithOpenAI fetch JSON_parse cardName con)) /\
  (forall base64Image con,
     logged "Error analyzing image:" con
       (analyzeCardImage fetch JSON_parse base64Image con)) /\
  (forall cardList purchase con,
     logged "Error recommending card:" con
       (recommendBestCard fetch JSON_parse cardList purchase con)) /\
  (forall base64Image cardList con,
     logged "Error analyzing image:" con
       (recommendCardFromImage fetch JSON_parse base64Image cardList con)).
Proof.
  assert (forall req con,
            exists added,
              ((r ← lift (fetch req); read_response JSON_parse r) con).2
              = con ++ added /\
              match ((r ← lift (fetch req); read_response JSON_parse r) con).1
              with
              | Ok _ => Forall (fun line : console_line => line.1 = Log) added
              | Throw _ => True
              end) as Hsimple.
  { intros req con. unfold mbind, M_bind, lift.
    destruct (fetch req) as [r|e].
    - destruct (read_response_added r con) as (added & Hc & Hr).
      destruct (read_response JSON_parse r con) as [[v|e] con'];
        cbn [fst snd] in *.
      + subst added. exists []. split; [exact Hc | constructor].
      + exists added. split; [exact Hc | exact I].
    - exists []. rewrite app_nil_r. split; [reflexivity | exact I]. }
  assert (forall first req cardList con,
            exists added,
              ((console Log first;;
                console Log "Available cards:";;
                formattedCardList ← lift (formatCardList cardList);
                r ← lift (fetch (req formattedCardList));
                recommendation ← read_response JSON_parse r;
                console Log "Recommendation:";;
                mret recommendation) con).2 = con ++ added /\
              match ((console Log first;;
                      console Log "Available cards:";;
                      formattedCardList ← lift (formatCardList cardList);
                      r ← lift (fetch (req formattedCardList));
                      recommendation ← read_response JSON_parse r;
                      console Log "Recommendation:";;
                      mret recommendation) con).1 with
              | Ok _ => Forall (fun line : console_line => line.1 = Log) added
              | Throw _ => True
              end) as Hlist.
  { intros first req cardList con.
    unfold mbind, M_bind, lift, console, mret, M_ret, print, list_console.
    destruct (formatCardList cardList) as [formatted|e].
    - destruct (fetch (req formatted)) as [r|e].
      + destruct (read_response_added r
                    ((con ++ [(Log, str first)])
                       ++ [(Log, str "Available cards:")]))
          as (added & Hc & Hr).
        destruct (read_response JSON_parse r _) as [[v|e] con'];
          cbn [fst snd] in *.
        * subst added. rewrite app_nil_r in Hc. subst con'.
          exists [(Log, str first); (Log, str "Available cards:");
                  (Log, str "Recommendation:")].
          split; [rewrite <- !app_assoc; reflexivity|].
          repeat constructor.
        * exists ([(Log, str first); (Log, str "Available cards:")] ++ added).
          split; [rewrite Hc, <- !app_assoc; reflexivity | exact I].
      + exists [(Log, str first); (Log, str "Available cards:")].
        split; [rewrite <- !app_assoc; reflexivity | exact I].
    - exists [(Log, str first); (Log, str "Available cards:")].
      split; [rewrite <- !app_assoc; reflexivity | exact I]. }
  split; [|split; [|split]].
  - intros cardName con. apply try_catch_logged, Hsimple.
  - intros image con. apply try_catch_logged, Hsimple.
  - intros cardList purchase con. apply try_catch_logged.
    apply (Hlist "Recommending card for:"%string
             (fun formatted => recommendation_request formatted purchase)).
  - intros image cardList con. apply try_catch_logged.
    apply (Hlist "Analyzing purchase image..."%string
             (fun formatted => image_recommendation_request formatted image)).
Qed.

Lemma read_response_content r content con :
  ok r = true -> carries_content r content ->
  read_response JSON_parse r con = (JSON_parse content, con).
Proof.
  intros Hok (body & choice & rest & message & Hj & Hc & Hm & Ht).
  rewrite (read_response_ok r con Hok), Hj.
  unfold mbind, result_bind. cbn [get]. rewrite Hc. cbn [get_first get].
  rewrite Hm. cbn [get]. rewrite Ht. reflexivity.
Qed.

(** X17: on an ok response whose first choice carries a string
    as content, each of the four calls returns what JSON.parse makes of that
    string, unchecked, and throws what JSON.parse throws; the two
    recommendation calls log Recommendation before they return. *)
Theorem ok_response_returns_parsed_content (r : response) (content : jsstring) :
  ok r = true -> carries_content r content ->
  (forall cardName con,
     fetch (search_request cardName) = Ok r ->
     searchCardWithOpenAI fetch JSON_parse cardName con
     = outcome_of_parse (JSON_parse content) con [] []
         "Error calling OpenAI API:") /\
  (forall base64Image con,
     fetch (card_image_request base64Image) = Ok r ->
     analyzeCardImage fetch JSON_parse base64Image con
     = outcome_of_parse (JSON_parse content) con [] []
         "Error analyzing image:") /\
  (forall cardList purchase formatted con,
     formatCardList cardList = Ok formatted ->
     fetch (recommendation_request formatted purchase) = Ok r ->
     recommendBestCard fetch JSON_parse cardList purchase con
     = outcome_of_parse (JSON_parse content) con
         (recommend_lines "Recommending card for:")
         [(Log, str "Recommendation:")] "Error recommending card:") /\
  (forall base64Image cardList formatted con,
     formatCardList cardList = Ok formatted ->
     fetch (image_recommendation_request formatted base64Image) = Ok r ->
     recommendCardFromImage fetch JSON_parse base64Image cardList con
     = outcome_of_parse (JSON_parse content) con
         (recommend_lines "Analyzing purchase image...")
         [(Log, str "Recommendation:")] "Error analyzing image:").
Proof.
  intros Hok Hcontent. split; [|split; [|split]].
  - intros cardName con Hf.
    unfold searchCardWithOpenAI, try_catch, mbind, M_bind, lift.
    rewrite Hf, (read_response_content r content con Hok Hcontent).
    unfold outcome_of_parse.
    destruct (JSON_parse content); [rewrite app_nil_r|]; reflexivity.
  - intros image con Hf.
    unfold analyzeCardImage, try_catch, mbind, M_bind, lift.
    rewrite Hf, (read_response_content r content con Hok Hcontent).
    unfold outcome_of_parse.
    destruct (JSON_parse content); [rewrite app_nil_r|]; reflexivity.
  - intros cardList purchase formatted con Hfmt Hf.
    unfold recommendBestCard, try_catch, mbind, M_bind, lift, console,
      print, list_console.
    rewrite Hfmt, Hf, (read_response_content r content _ Hok Hcontent).
    unfold outcome_of_parse, recommend_lines, rethrow, mbind, M_bind,
      console, throw, mret, M_ret, print, list_console.
    destruct (JSON_parse content); rewrite <- !app_assoc; reflexivity.
  - intros image cardList formatted con Hfmt Hf.
    unfold recommendCardFromImage, try_catch, mbind, M_bind, lift, console,
      print, list_console.
    rewrite Hfmt, Hf, (read_response_content r content _ Hok Hcontent).
    unfold outcome_of_parse, recommend_lines, rethrow, mbind, M_bind,
      console, throw, mret, M_ret, print, list_console.
    destruct (JSON_parse content); rewrite <- !app_assoc; reflexivity.
Qed.

Lemma read_response_no_choice r con :
  ok r = true -> has_no_choice r ->
  read_response JSON_parse r con = (Throw TypeError, con).
Proof.
  intros Hok (body & Hj & Hc).
  rewrite (read_response_ok r con Hok), Hj.
  unfold mbind, result_bind. cbn [get].
  destruct Hc as [-> | ->]; reflexivity.
Qed.

(** X18: on an ok response whose body has no choices, or an
    empty array of choices, each of the four calls throws a TypeError. *)
Theorem ok_response_without_choice_throws (r : response) :
  ok r = true -> has_no_choice r ->
  (forall cardName con,
     fetch (search_request cardName) = Ok r ->
     (searchCardWithOpenAI fetch JSON_parse cardName con).1
     = Throw TypeError) /\
  (forall base64Image con,
     fetch (card_image_request base64Image) = Ok r ->
     (analyzeCardImage fetch JSON_parse base64Image con).1
     = Throw TypeError) /\
  (forall cardList purchase formatted con,
     formatCardList cardList = Ok formatted ->
     fetch (recommendation_request formatted purchase) = Ok r ->
     (recommendBestCard fetch JSON_parse cardList purchase con).1
     = Throw TypeError) /\
  (forall base64Image cardList formatted con,
     formatCardList cardList = Ok formatted ->
     fetch (image_recommendation_request formatted base64Image) = Ok r ->
     (recommendCardFromImage fetch JSON_parse base64Image cardList con).1
     = Throw TypeError).
Proof.
  intros Hok Hno. split; [|split; [|split]].
  - intros cardName con Hf.
    unfold searchCardWithOpenAI, try_catch, mbind, M_bind, lift.
    rewrite Hf, (read_response_no_choice r con Hok Hno). reflexivity.
  - intros image con Hf.
    unfold analyzeCardImage, try_catch, mbind, M_bind, lift.
    rewrite Hf, (read_response_no_choice r con Hok Hno). reflexivity.
  - intros cardList purchase formatted con Hfmt Hf.
    unfold recommendBestCard, try_catch, mbind, M_bind, lift, console.
    rewrite Hfmt, Hf, (read_response_no_choice r _ Hok Hno). reflexivity.
  - intros image cardList formatted con Hfmt Hf.
    unfold recommendCardFromImage, try_catch, mbind, M_bind, lift, console.
    rewrite Hfmt, Hf, (read_response_no_choice r _ Hok Hno). reflexivity.
Qed.

(** X19: when fetch rejects, each of the four calls logs the line
    of its catch block and throws the same error again, unwrapped. *)
Theorem rejected_fetch_is_rethrown (e : error) :
  (forall cardName con,
     fetch (search_request cardName) = Throw e ->
     searchCardWithOpenAI fetch JSON_parse cardName con
     = (Throw e, con ++ [(ConsoleError, str "Error calling OpenAI API:")])) /\
  (forall base64Image con,
     fetch (card_image_request base64Image) = Throw e ->
     analyzeCardImage fetch JSON_parse base64Image con
     = (Throw e, con ++ [(ConsoleError, str "Error analyzing image:")])) /\
  (forall cardList purchase formatted con,
     formatCardList cardList = Ok formatted ->
     fetch (recommendation_request formatted purchase) = Throw e ->
     recommendBestCard fetch JSON_parse cardList purchase con
     = (Throw e,
        con ++ recommend_lines "Recommending card for:"
            ++ [(ConsoleError, str "Error recommending card:")])) /\
  (forall base64Image cardList formatted con,
     formatCardList cardList = Ok formatted ->
     fetch (image_recommendation_request formatted base64Image) = Throw e ->
     recommendCardFromImage fetch JSON_parse base64Image cardList con
     = (Throw e,
        con ++ recommend_lines "Analyzing purchase image..."
            ++ [(ConsoleError, str "Error analyzing image:")])).
Proof.
  split; [|split; [|split]].
  - intros cardName con Hf.
    unfold searchCardWithOpenAI, try_catch, mbind, M_bind, lift.
    rewrite Hf. reflexivity.
  - intros image con Hf.
    unfold analyzeCardImage, try_catch, mbind, M_bind, lift.
    rewrite Hf. reflexivity.
  - intros cardList purchase formatted con Hfmt Hf.
    unfold recommendBestCard, try_catch, mbind, M_bind, lift, console,
      print, list_console.
    rewrite Hfmt, Hf.
    unfold recommend_lines, rethrow, mbind, M_bind, console, throw, print,
      list_console.
    rewrite <- !app_assoc. reflexivity.
  - intros image cardList formatted con Hfmt Hf.
    unfold recommendCardFromImage, try_catch, mbind, M_bind, lift, console,
      print, list_console.
    rewrite Hfmt, Hf.
    unfold recommend_lines, rethrow, mbind, M_bind, console, throw, print,
      list_console.
    rewrite <- !app_assoc. reflexivity.
Qed.

End CallFacts.

Lemma ok_response_returns_parsed_content_witness :
  searchCardWithOpenAI (fun _ => Ok (completion (str "null"))) parse_null
    (str "Chase Freedom") []
  = (Ok VNull, []) /\
  analyzeCardImage (fun _ => Ok (completion (str "{"))) parse_null
    (str "aGVsbG8=") []
  = (Throw SyntaxError, [(ConsoleError, str "Error analyzing image:")]).
Proof.
  split.
  - destruct (ok_response_returns_parsed_content
                (fun _ => Ok (completion (str "null"))) parse_null
                (completion (str "null")) (str "null")) as [H _].
    + reflexivity.
    + do 4 eexists. repeat (split; [reflexivity|]). reflexivity.
    + exact (H (str "Chase Freedom") [] eq_refl).
  - destruct (ok_response_returns_parsed_content
                (fun _ => Ok (completion (str "{"))) parse_null
                (completion (str "{")) (str "{")) as (_ & H & _).
    + reflexivity.
    + do 4 eexists. repeat (split; [reflexivity|]). reflexivity.
    + exact (H (str "aGVsbG8=") [] eq_refl).
Defined.

Lemma ok_response_without_choice_throws_witness :
  (searchCardWithOpenAI (fun _ => Ok empty_completion) parse_null
     (str "Chase Freedom") []).1
  = Throw TypeError.
Proof.
  destruct (ok_response_without_choice_throws
              (fun _ => Ok empty_completion) parse_null empty_completion)
    as [H _].
  - reflexivity.
  - eexists. split; [reflexivity|]. right. reflexivity.
  - exact (H (str "Chase Freedom") [] eq_refl).
Defined.
